(** * MominOS desktop shell: window manager, dock and session gate

    A shallow embedding of [src/app/components/desktop.tsx] and
    [src/app/components/login-screen.tsx].

    Numbers.  JavaScript numbers are modelled as exact rationals [Q]:
    window coordinates start at [Math.random() * 200 + 100] and the snap
    geometry divides the viewport by two, so integers would not do;
    rounding, NaN and infinities are left out.  [Math.max]/[Math.min] are
    [Qmax]/[Qmin], [<] and [>] are [Qltb]/[Qgtb], and [===] on numbers is
    [Qeq_bool].

    React state.  [const [windows, setWindows] = useState(...)] binds
    [windows] to the value of the render the handler was created in; a
    call [setWindows v] does not rebind it, it queues [v] as the next
    value, and the last queued value is the one committed.  A handler is
    therefore a function of two stores: the render snapshot [r] it closes
    over (every read of a state variable) and the pending store [s] its
    [set...] calls write to.  [dragRef] is a ref ([useRef]): it is read and
    written in place, so it lives in the pending store only. *)

From Stdlib Require Import QArith Qminmax Lqa ZArith List String Ascii Bool Lia.
From Stdlib Require Import DecimalString DecimalZ.
Import ListNotations.

Open Scope string_scope.
Open Scope Q_scope.

(** ** JavaScript number primitives *)

Definition Qltb (a b : Q) : bool := negb (Qle_bool b a).
Definition Qgtb (a b : Q) : bool := Qltb b a.

(** [s |> f] runs the statement [f] on the pending store [s]; a handler
    body reads top to bottom as in the source. *)
Notation "s |> f" := (f s) (at level 45, left associativity, only parsing).

(** ** login-screen.tsx *)

Module LoginScreen.

(** [users] entries: [{ id, name, username, avatar? }]. *)
Record User := mkUser {
  id : string;
  name : string;
  username : string;
  avatar : option string
}.

Definition users : list User :=
  [ mkUser "1" "Administrator" "admin" (Some "/placeholder.svg?height=80&width=80");
    mkUser "2" "Guest User" "guest" None ].

(** Truthiness of a JavaScript string: the empty string is falsy. *)
Definition truthy_string (s : string) : bool :=
  match s with
  | EmptyString => false
  | String _ _ => true
  end.

(** Truthiness of [selectedUser : any | null], which only ever holds
    [null] or a user object. *)
Definition truthy_user (u : option User) : bool :=
  match u with
  | Some _ => true
  | None => false
  end.

(** [handleLogin] (login-screen.tsx:47-52).  The result is the list of
    calls made to the [onLogin] callback, in order, each with the
    argument it was given ([e.preventDefault()] has no effect on the
    component's state). *)
Definition handleLogin (selectedUser : option User) (password : string)
  : list (option User) :=
  if truthy_user selectedUser && truthy_string password
  then [selectedUser]
  else [].

(** The component's state (login-screen.tsx:17-20), without the clock. *)
Record State := mkState {
  st_password : string;
  st_showPassword : bool;
  st_selectedUser : option User
}.

(** The state of the first render. *)
Definition initialState : State := mkState "" false None.

(** The mount effect (login-screen.tsx:41-45): [users[0]] is selected
    when the list is not empty. *)
Definition mountEffect (st : State) : State :=
  match users with
  | [] => st
  | u :: _ => mkState (st_password st) (st_showPassword st) (Some u)
  end.

(** What the user can do on the screen.  [ClickUser i] is a click on the
    [i]-th avatar button, [ChangePassword v] an edit that leaves [v] in
    the password field, [SubmitForm] a submit of the form. *)
Inductive Event :=
  | ClickUser (i : nat)
  | ChangePassword (v : string)
  | ToggleShowPassword
  | SubmitForm.

(** One event on the state and the list of [onLogin] calls made so far.
    The avatar buttons are [users.map(...)], so an index outside the list
    has no button; the form, its password field and its eye button are
    rendered only while [selectedUser] is set (login-screen.tsx:163). *)
Definition step (sc : State * list (option User)) (ev : Event)
  : State * list (option User) :=
  let (st, calls) := sc in
  match ev with
  | ClickUser i =>
      match nth_error users i with
      | Some u => (mkState (st_password st) (st_showPassword st) (Some u), calls)
      | None => sc
      end
  | ChangePassword v =>
      if truthy_user (st_selectedUser st)
      then (mkState v (st_showPassword st) (st_selectedUser st), calls)
      else sc
  | ToggleShowPassword =>
      if truthy_user (st_selectedUser st)
      then (mkState (st_password st) (negb (st_showPassword st))
                    (st_selectedUser st), calls)
      else sc
  | SubmitForm =>
      if truthy_user (st_selectedUser st)
      then (st, (calls ++ handleLogin (st_selectedUser st) (st_password st))%list)
      else sc
  end.

(** The screen after mounting and a list of events. *)
Definition run (evs : list Event) : State * list (option User) :=
  fold_left step evs (mountEffect initialState, []).

(** [disabled={!password}] on the submit button. *)
Definition submitDisabled (st : State) : bool :=
  negb (truthy_string (st_password st)).

(** A value that is an identity of the list. *)
Definition listed (c : option User) : Prop :=
  exists u, c = Some u /\ In u users.

End LoginScreen.

(** ** desktop.tsx *)

Module Desktop.

(** Icons and content components are opaque references in the source
    ([icon: any], [component?: any]); only their identity matters. *)
Inductive Icon :=
  | IconTerminal | IconFolderOpen | IconSettings | IconChrome | IconCode
  | IconMusic | IconImage | IconCalculator | IconCalendar | IconMail.

Inductive Component :=
  | TerminalApp | FilesApp | SettingsApp | BrowserApp | CodeApp
  | MusicApp | PhotosApp | CalculatorApp | CalendarApp | MailApp.

(** [interface App] (desktop.tsx:50-56). *)
Record App := mkApp {
  app_id : string;
  app_name : string;
  app_icon : Icon;
  app_color : string;
  app_component : option Component
}.

(** The values of [Window.snapped] other than [null]. *)
Inductive Snapped :=
  | SnappedLeft | SnappedRight
  | SnappedTopLeft | SnappedTopRight
  | SnappedBottomLeft | SnappedBottomRight.

(** [interface Window] (desktop.tsx:58-71).  [snapped] and [isResizing]
    are optional in the type, but the only place that creates a window
    ([openApp]) gives both, so [None] is [null] and no field is ever
    [undefined]. *)
Record Window := mkWindow {
  id : string;
  title : string;
  icon : Icon;
  x : Q;
  y : Q;
  width : Q;
  height : Q;
  minimized : bool;
  maximized : bool;
  component : option Component;
  snapped : option Snapped;
  isResizing : bool
}.

(** [type DockPosition] (desktop.tsx:73). *)
Inductive DockPosition :=
  | DockBottom | DockTop | DockLeft | DockRight
  | DockBottomLeft | DockBottomRight | DockTopLeft | DockTopRight.

(** [type SnapZone] (desktop.tsx:74). *)
Inductive SnapZone :=
  | LeftHalf | RightHalf | ZoneTopLeft | ZoneTopRight
  | ZoneBottomLeft | ZoneBottomRight | Maximize.

(** The resize handle.  The field is a [string] in the source; the eight
    call sites (desktop.tsx:1074-1104) pass exactly these literals. *)
Inductive Handle :=
  | HRight | HLeft | HBottom | HTop
  | HBottomRight | HBottomLeft | HTopRight | HTopLeft.

(** The object held by [resizingWindow] (desktop.tsx:110-119). *)
Record ResizeState := mkResizeState {
  windowId : string;
  handle : Handle;
  startX : Q;
  startY : Q;
  startWidth : Q;
  startHeight : Q;
  startWindowX : Q;
  startWindowY : Q
}.

(** The object held by [dragRef.current] (desktop.tsx:121). *)
Record DragRef := mkDragRef {
  drag_windowId : string;
  drag_startX : Q;
  drag_startY : Q
}.

(** [window.innerWidth] and [window.innerHeight]. *)
Record Viewport := mkViewport {
  innerWidth : Q;
  innerHeight : Q
}.

(** What the handlers read from a mouse event: the client coordinates
    and, for a pointer-down on a window, whether the target lies inside
    [.window-controls] or [.resize-handle]. *)
Record MouseEvent := mkMouseEvent {
  clientX : Q;
  clientY : Q;
  inWindowControls : bool;
  inResizeHandle : bool
}.

(** [info.point] of the dock's drag-end event. *)
Record Point := mkPoint {
  point_x : Q;
  point_y : Q
}.

(** The state of the [Desktop] component that the window manager and the
    dock use.  [searchOpen] to [resizingWindow] are [useState] variables,
    [dragRef] is the [useRef] cell, and [listenerWindows] is the value of
    [windows] in the closure of the [mousemove] listener registered on
    the browser window by the effect at desktop.tsx:130-151: the effect
    depends on [resizingWindow] only, so that listener keeps the
    [handleWindowResize] (and its [windows]) of the render in which
    [resizingWindow] last changed.  Display-only state ([searchQuery],
    [time], [mousePosition], [hoveredDockItem], ...) is left out. *)
Record Shell := mkShell {
  searchOpen : bool;
  windows : list Window;
  activeWindow : option string;
  dockPosition : DockPosition;
  isDraggingDock : bool;
  showSnapZones : bool;
  draggingWindow : option string;
  resizingWindow : option ResizeState;
  dragRef : option DragRef;
  listenerWindows : list Window
}.

(** *** Object spread: [{ ...w, field: v }] *)

Definition with_x (v : Q) (w : Window) : Window :=
  mkWindow (id w) (title w) (icon w) v (y w) (width w) (height w)
           (minimized w) (maximized w) (component w) (snapped w) (isResizing w).
Definition with_y (v : Q) (w : Window) : Window :=
  mkWindow (id w) (title w) (icon w) (x w) v (width w) (height w)
           (minimized w) (maximized w) (component w) (snapped w) (isResizing w).
Definition with_width (v : Q) (w : Window) : Window :=
  mkWindow (id w) (title w) (icon w) (x w) (y w) v (height w)
           (minimized w) (maximized w) (component w) (snapped w) (isResizing w).
Definition with_height (v : Q) (w : Window) : Window :=
  mkWindow (id w) (title w) (icon w) (x w) (y w) (width w) v
           (minimized w) (maximized w) (component w) (snapped w) (isResizing w).
Definition with_minimized (v : bool) (w : Window) : Window :=
  mkWindow (id w) (title w) (icon w) (x w) (y w) (width w) (height w)
           v (maximized w) (component w) (snapped w) (isResizing w).
Definition with_maximized (v : bool) (w : Window) : Window :=
  mkWindow (id w) (title w) (icon w) (x w) (y w) (width w) (height w)
           (minimized w) v (component w) (snapped w) (isResizing w).
Definition with_snapped (v : option Snapped) (w : Window) : Window :=
  mkWindow (id w) (title w) (icon w) (x w) (y w) (width w) (height w)
           (minimized w) (maximized w) (component w) v (isResizing w).
Definition with_isResizing (v : bool) (w : Window) : Window :=
  mkWindow (id w) (title w) (icon w) (x w) (y w) (width w) (height w)
           (minimized w) (maximized w) (component w) (snapped w) v.

(** *** State setters *)

Definition setSearchOpen (v : bool) (s : Shell) : Shell :=
  mkShell v (windows s) (activeWindow s) (dockPosition s) (isDraggingDock s)
          (showSnapZones s) (draggingWindow s) (resizingWindow s) (dragRef s)
          (listenerWindows s).
Definition setWindows (v : list Window) (s : Shell) : Shell :=
  mkShell (searchOpen s) v (activeWindow s) (dockPosition s) (isDraggingDock s)
          (showSnapZones s) (draggingWindow s) (resizingWindow s) (dragRef s)
          (listenerWindows s).
Definition setActiveWindow (v : option string) (s : Shell) : Shell :=
  mkShell (searchOpen s) (windows s) v (dockPosition s) (isDraggingDock s)
          (showSnapZones s) (draggingWindow s) (resizingWindow s) (dragRef s)
          (listenerWindows s).
Definition setDockPosition (v : DockPosition) (s : Shell) : Shell :=
  mkShell (searchOpen s) (windows s) (activeWindow s) v (isDraggingDock s)
          (showSnapZones s) (draggingWindow s) (resizingWindow s) (dragRef s)
          (listenerWindows s).
Definition setIsDraggingDock (v : bool) (s : Shell) : Shell :=
  mkShell (searchOpen s) (windows s) (activeWindow s) (dockPosition s) v
          (showSnapZones s) (draggingWindow s) (resizingWindow s) (dragRef s)
          (listenerWindows s).
Definition setShowSnapZones (v : bool) (s : Shell) : Shell :=
  mkShell (searchOpen s) (windows s) (activeWindow s) (dockPosition s)
          (isDraggingDock s) v (draggingWindow s) (resizingWindow s) (dragRef s)
          (listenerWindows s).
Definition setDraggingWindow (v : option string) (s : Shell) : Shell :=
  mkShell (searchOpen s) (windows s) (activeWindow s) (dockPosition s)
          (isDraggingDock s) (showSnapZones s) v (resizingWindow s) (dragRef s)
          (listenerWindows s).
Definition setResizingWindow (v : option ResizeState) (s : Shell) : Shell :=
  mkShell (searchOpen s) (windows s) (activeWindow s) (dockPosition s)
          (isDraggingDock s) (showSnapZones s) (draggingWindow s) v (dragRef s)
          (listenerWindows s).
(** [dragRef.current = v]. *)
Definition setDragRef (v : option DragRef) (s : Shell) : Shell :=
  mkShell (searchOpen s) (windows s) (activeWindow s) (dockPosition s)
          (isDraggingDock s) (showSnapZones s) (draggingWindow s)
          (resizingWindow s) v (listenerWindows s).
(** The effect at desktop.tsx:130-151 registering a new listener. *)
Definition setListenerWindows (v : list Window) (s : Shell) : Shell :=
  mkShell (searchOpen s) (windows s) (activeWindow s) (dockPosition s)
          (isDraggingDock s) (showSnapZones s) (draggingWindow s)
          (resizingWindow s) (dragRef s) v.

(** The state of the first render: every [useState] initial value. *)
Definition initialShell : Shell :=
  mkShell false [] None DockBottom false false None None None [].

(** A React event handler [h r s] runs against the committed state: its
    closure [r] and the pending store [s] both start as that state. *)
Definition dispatch (h : Shell -> Shell -> Shell) (s : Shell) : Shell := h s s.

(** *** The app catalog (desktop.tsx:159-178) *)

Definition desktopApps : list App :=
  [ mkApp "terminal" "Terminal" IconTerminal "from-green-500 to-green-600" (Some TerminalApp);
    mkApp "files" "Files" IconFolderOpen "from-blue-500 to-blue-600" (Some FilesApp);
    mkApp "settings" "Settings" IconSettings "from-gray-500 to-gray-600" (Some SettingsApp);
    mkApp "browser" "Browser" IconChrome "from-orange-500 to-orange-600" (Some BrowserApp);
    mkApp "code" "Code" IconCode "from-purple-500 to-purple-600" (Some CodeApp);
    mkApp "music" "Music" IconMusic "from-pink-500 to-pink-600" (Some MusicApp);
    mkApp "photos" "Photos" IconImage "from-yellow-500 to-yellow-600" (Some PhotosApp);
    mkApp "calculator" "Calculator" IconCalculator "from-indigo-500 to-indigo-600" (Some CalculatorApp);
    mkApp "calendar" "Calendar" IconCalendar "from-red-500 to-red-600" (Some CalendarApp);
    mkApp "mail" "Mail" IconMail "from-teal-500 to-teal-600" (Some MailApp) ].

Definition dockApps : list App := firstn 6 desktopApps.

(** *** Dock (desktop.tsx:244-267) *)

(** The value of the local [newPosition] when [handleDockDrag] reaches
    [setDockPosition]. *)
Definition newPosition (vp : Viewport) (point : Point) : DockPosition :=
  let windowWidth := innerWidth vp in
  let windowHeight := innerHeight vp in
  let margin := 100 in
  let isNearLeft := Qltb (point_x point) margin in
  let isNearRight := Qgtb (point_x point) (windowWidth - margin) in
  let isNearTop := Qltb (point_y point) (margin + 64) in
  let isNearBottom := Qgtb (point_y point) (windowHeight - margin) in
  if isNearLeft && isNearTop then DockTopLeft
  else if isNearRight && isNearTop then DockTopRight
  else if isNearLeft && isNearBottom then DockBottomLeft
  else if isNearRight && isNearBottom then DockBottomRight
  else if isNearLeft then DockLeft
  else if isNearRight then DockRight
  else if isNearTop then DockTop
  else DockBottom.

Definition handleDockDrag (vp : Viewport) (point : Point) (r s : Shell) : Shell :=
  s |> setDockPosition (newPosition vp point).

(** *** Resize (desktop.tsx:270-366) *)

(** The body of the [map] callback of [handleWindowResize] for the window
    being resized: the [switch] on the handle, the clamp into the screen
    and the returned object. *)
Definition resizeWindow (vp : Viewport) (rs : ResizeState) (e : MouseEvent)
    (w : Window) : Window :=
  let deltaX := clientX e - startX rs in
  let deltaY := clientY e - startY rs in
  let pinX (newWidth newX : Q) : Q :=
    if Qeq_bool newWidth 300 then startWindowX rs + startWidth rs - 300 else newX in
  let pinY (newHeight newY : Q) : Q :=
    if Qeq_bool newHeight 200 then startWindowY rs + startHeight rs - 200 else newY in
  let '(newX, newY, newWidth, newHeight) :=
    match handle rs with
    | HRight =>
        (x w, y w, Qmax 300 (startWidth rs + deltaX), height w)
    | HLeft =>
        let newWidth := Qmax 300 (startWidth rs - deltaX) in
        (pinX newWidth (startWindowX rs + deltaX), y w, newWidth, height w)
    | HBottom =>
        (x w, y w, width w, Qmax 200 (startHeight rs + deltaY))
    | HTop =>
        let newHeight := Qmax 200 (startHeight rs - deltaY) in
        (x w, pinY newHeight (startWindowY rs + deltaY), width w, newHeight)
    | HBottomRight =>
        (x w, y w, Qmax 300 (startWidth rs + deltaX),
         Qmax 200 (startHeight rs + deltaY))
    | HBottomLeft =>
        let newWidth := Qmax 300 (startWidth rs - deltaX) in
        (pinX newWidth (startWindowX rs + deltaX), y w, newWidth,
         Qmax 200 (startHeight rs + deltaY))
    | HTopRight =>
        let newHeight := Qmax 200 (startHeight rs - deltaY) in
        (x w, pinY newHeight (startWindowY rs + deltaY),
         Qmax 300 (startWidth rs + deltaX), newHeight)
    | HTopLeft =>
        let newWidth := Qmax 300 (startWidth rs - deltaX) in
        let newHeight := Qmax 200 (startHeight rs - deltaY) in
        (pinX newWidth (startWindowX rs + deltaX),
         pinY newHeight (startWindowY rs + deltaY), newWidth, newHeight)
    end in
  let newX := Qmax 0 (Qmin newX (innerWidth vp - newWidth)) in
  let newY := Qmax 40 (Qmin newY (innerHeight vp - newHeight)) in
  w |> with_x newX |> with_y newY |> with_width newWidth
    |> with_height newHeight |> with_isResizing true.

(** [handleWindowResize].  [r] is the render whose [windows] and
    [resizingWindow] the function closes over. *)
Definition handleWindowResize (vp : Viewport) (e : MouseEvent) (r s : Shell)
  : Shell :=
  match resizingWindow r with
  | None => s
  | Some rs =>
      s |> setWindows
             (map (fun w => if negb (String.eqb (id w) (windowId rs)) then w
                            else resizeWindow vp rs e w)
                  (windows r))
  end.

(** [startWindowResize]; [preventDefault] and [stopPropagation] have no
    effect on the state (the latter keeps the pointer-down from reaching
    [handleWindowMouseDown]). *)
Definition startWindowResize (e : MouseEvent) (wid : string) (h : Handle)
    (r s : Shell) : Shell :=
  match find (fun w => String.eqb (id w) wid) (windows r) with
  | None => s
  | Some window =>
      s |> setResizingWindow
             (Some (mkResizeState wid h (clientX e) (clientY e)
                                  (width window) (height window)
                                  (x window) (y window)))
        |> setActiveWindow (Some wid)
  end.

(** *** Window list operations (desktop.tsx:368-424) *)

(** [`window-${Date.now()}`]. *)
Definition windowIdAt (now : Z) : string :=
  "window-" ++ NilZero.string_of_int (Z.to_int now).

(** [openApp].  [now] is the value of [Date.now()]; [rx] and [ry] are the
    values of the two calls of [Math.random()]. *)
Definition openApp (app : App) (now : Z) (rx ry : Q) (r s : Shell) : Shell :=
  match find (fun w => String.eqb (title w) (app_name app)) (windows r) with
  | Some existingWindow =>
      (if minimized existingWindow
       then s |> setWindows
                   (map (fun w => if String.eqb (id w) (id existingWindow)
                                  then with_minimized false w else w)
                        (windows r))
       else s)
        |> setActiveWindow (Some (id existingWindow))
  | None =>
      let newWindow :=
        mkWindow (windowIdAt now) (app_name app) (app_icon app)
                 (rx * 200 + 100) (ry * 200 + 100) 900 700
                 false false (app_component app) None false in
      s |> setWindows (windows r ++ [newWindow])%list
        |> setActiveWindow (Some (id newWindow))
        |> setSearchOpen false
  end.

Definition closeWindow (wid : string) (r s : Shell) : Shell :=
  let s1 := s |> setWindows
                   (filter (fun w => negb (String.eqb (id w) wid)) (windows r)) in
  match activeWindow r with
  | Some a => if String.eqb a wid then s1 |> setActiveWindow None else s1
  | None => s1
  end.

Definition minimizeWindow (wid : string) (r s : Shell) : Shell :=
  s |> setWindows
         (map (fun w => if String.eqb (id w) wid then with_minimized true w else w)
              (windows r)).

Definition maximizeWindow (vp : Viewport) (wid : string) (r s : Shell) : Shell :=
  s |> setWindows
         (map (fun w =>
                 if String.eqb (id w) wid
                 then w |> with_maximized (negb (maximized w))
                        |> with_x (if maximized w then x w else 0)
                        |> with_y (if maximized w then y w else 40)
                        |> with_width (if maximized w then width w
                                       else innerWidth vp)
                        |> with_height (if maximized w then height w
                                        else innerHeight vp - 40)
                        |> with_snapped None
                 else w)
              (windows r)).

(** *** Snapping (desktop.tsx:427-506) *)

(** The locals [newX], [newY], [newWidth], [newHeight] and [snapType]
    after the [switch] of [snapWindow]. *)
Definition snapTarget (vp : Viewport) (zone : SnapZone)
  : Q * Q * Q * Q * option Snapped :=
  let screenWidth := innerWidth vp in
  let screenHeight := innerHeight vp - 40 in
  match zone with
  | LeftHalf =>
      (0, 40, screenWidth / 2, screenHeight, Some SnappedLeft)
  | RightHalf =>
      (screenWidth / 2, 40, screenWidth / 2, screenHeight, Some SnappedRight)
  | ZoneTopLeft =>
      (0, 40, screenWidth / 2, screenHeight / 2, Some SnappedTopLeft)
  | ZoneTopRight =>
      (screenWidth / 2, 40, screenWidth / 2, screenHeight / 2,
       Some SnappedTopRight)
  | ZoneBottomLeft =>
      (0, 40 + screenHeight / 2, screenWidth / 2, screenHeight / 2,
       Some SnappedBottomLeft)
  | ZoneBottomRight =>
      (screenWidth / 2, 40 + screenHeight / 2, screenWidth / 2,
       screenHeight / 2, Some SnappedBottomRight)
  | Maximize =>
      (0, 40, screenWidth, screenHeight, None)
  end.

Definition isMaximize (zone : SnapZone) : bool :=
  match zone with
  | Maximize => true
  | _ => false
  end.

(** The object [snapWindow] builds for the snapped window. *)
Definition snapOne (vp : Viewport) (zone : SnapZone) (w : Window) : Window :=
  let '(newX, newY, newWidth, newHeight, snapType) := snapTarget vp zone in
  w |> with_x newX |> with_y newY |> with_width newWidth
    |> with_height newHeight |> with_maximized (isMaximize zone)
    |> with_snapped snapType.

Definition snapWindow (vp : Viewport) (wid : string) (zone : SnapZone)
    (r s : Shell) : Shell :=
  s |> setWindows
         (map (fun w => if String.eqb (id w) wid then snapOne vp zone w else w)
              (windows r))
    |> setShowSnapZones false
    |> setDraggingWindow None.

(** *** Dragging a window (desktop.tsx:508-586) *)

Definition handleWindowMouseDown (e : MouseEvent) (wid : string) (r s : Shell)
  : Shell :=
  if inWindowControls e then s
  else if inResizeHandle e then s
  else s |> setDragRef (Some (mkDragRef wid (clientX e) (clientY e)))
         |> setActiveWindow (Some wid)
         |> setDraggingWindow (Some wid).

Definition handleWindowMouseMove (vp : Viewport) (e : MouseEvent) (r s : Shell)
  : Shell :=
  match dragRef s with
  | None => s
  | Some d =>
      let deltaX := clientX e - drag_startX d in
      let deltaY := clientY e - drag_startY d in
      let margin := 50 in
      let showZones :=
        Qltb (clientY e) margin
        || Qltb (clientX e) margin
        || Qgtb (clientX e) (innerWidth vp - margin)
        || Qgtb (clientY e) (innerHeight vp - margin) in
      s |> setShowSnapZones showZones
        |> setWindows
             (map (fun w =>
                     if String.eqb (id w) (drag_windowId d) && negb (maximized w)
                     then w |> with_x (Qmax 0 (x w + deltaX))
                            |> with_y (Qmax 40 (y w + deltaY))
                            |> with_snapped None
                     else w)
                  (windows r))
        |> setDragRef (Some (mkDragRef (drag_windowId d) (clientX e) (clientY e)))
  end.

(** The zone chosen by the [if] chain of [handleWindowMouseUp]; [None]
    when no branch is taken. *)
Definition releaseZone (vp : Viewport) (e : MouseEvent) : option SnapZone :=
  let margin := 50 in
  if Qltb (clientY e) margin then
    if Qltb (clientX e) (innerWidth vp / 2) then Some ZoneTopLeft
    else Some ZoneTopRight
  else if Qgtb (clientY e) (innerHeight vp - margin) then
    if Qltb (clientX e) (innerWidth vp / 2) then Some ZoneBottomLeft
    else Some ZoneBottomRight
  else if Qltb (clientX e) margin then Some LeftHalf
  else if Qgtb (clientX e) (innerWidth vp - margin) then Some RightHalf
  else None.

(** [handleWindowMouseUp].  Both [snapWindow] and the last statement
    compute their new list from [windows r], the list of the render the
    handler belongs to, and the last [setWindows] is the one that is
    committed. *)
Definition handleWindowMouseUp (vp : Viewport) (e : MouseEvent) (r s : Shell)
  : Shell :=
  (match dragRef s with
   | Some d =>
       if showSnapZones r then
         match releaseZone vp e with
         | Some zone => snapWindow vp (drag_windowId d) zone r s
         | None => s
         end
       else s
   | None => s
   end)
    |> setDragRef None
    |> setShowSnapZones false
    |> setDraggingWindow None
    |> setWindows (map (with_isResizing false) (windows r)).

(** *** Browser events *)

(** The [mousemove] listener on the browser window (desktop.tsx:131-138).
    Its closure is the render in which [resizingWindow] last changed:
    that render's [resizingWindow] is the current one, its [windows] is
    [listenerWindows]. *)
Definition handleMouseMove (vp : Viewport) (e : MouseEvent) (committed s : Shell)
  : Shell :=
  handleWindowResize vp e
    (committed |> setWindows (listenerWindows committed)) s.

(** The [mouseup] listener on the browser window (desktop.tsx:140-142). *)
Definition handleMouseUp (s : Shell) : Shell :=
  s |> setResizingWindow None.

(** After a commit that changed [resizingWindow] the effect registers the
    listeners of the new render. *)
Definition runEffect (changed : bool) (s : Shell) : Shell :=
  if changed then s |> setListenerWindows (windows s) else s.

(** A pointer-down on a window that is not on a resize handle. *)
Definition onWindowMouseDown (e : MouseEvent) (wid : string) (s : Shell) : Shell :=
  dispatch (handleWindowMouseDown e wid) s.

(** A pointer-down on a resize handle: [startWindowResize] stores a new
    object in [resizingWindow] whenever it finds the window. *)
Definition onResizeHandleMouseDown (e : MouseEvent) (wid : string) (h : Handle)
    (s : Shell) : Shell :=
  let found :=
    match find (fun w => String.eqb (id w) wid) (windows s) with
    | Some _ => true
    | None => false
    end in
  dispatch (startWindowResize e wid h) s |> runEffect found.

(** A pointer move: the handler on the root element runs first, then the
    listener on the browser window, both before the next render. *)
Definition onMouseMove (vp : Viewport) (e : MouseEvent) (s : Shell) : Shell :=
  dispatch (handleWindowMouseMove vp e) s |> handleMouseMove vp e s.

(** A pointer-up, in the same order. *)
Definition onMouseUp (vp : Viewport) (e : MouseEvent) (s : Shell) : Shell :=
  let changed :=
    match resizingWindow s with
    | Some _ => true
    | None => false
    end in
  dispatch (handleWindowMouseUp vp e) s |> handleMouseUp |> runEffect changed.

(** One drag update ([updateDrag] in the specification): the root
    handler alone. *)
Definition dragUpdate (vp : Viewport) (s : Shell) (e : MouseEvent) : Shell :=
  dispatch (handleWindowMouseMove vp e) s.

(** A window-drag gesture: pointer-down on window [wid], pointer moves,
    pointer-up. *)
Definition dragGesture (vp : Viewport) (down : MouseEvent) (wid : string)
    (moves : list MouseEvent) (up : MouseEvent) (s : Shell) : Shell :=
  onMouseUp vp up
    (fold_left (fun st e => onMouseMove vp e st) moves
               (onWindowMouseDown down wid s)).

(** One resize update during a resize gesture: a pointer move. *)
Definition resizeUpdate (vp : Viewport) (s : Shell) (e : MouseEvent) : Shell :=
  onMouseMove vp e s.

(** Selecting an entry in the app launcher overlay
    ([onClick={() => openApp(app)}], desktop.tsx:998). *)
Definition selectLauncherEntry (app : App) (now : Z) (rx ry : Q) (s : Shell)
  : Shell :=
  dispatch (openApp app now rx ry) s.

(** Clicking the launcher item of the dock
    ([onClick={() => setSearchOpen(true)}], desktop.tsx:1218). *)
Definition openLauncher (s : Shell) : Shell :=
  dispatch (fun r st => st |> setSearchOpen true) s.

(** *** Predicates, the specification's wording and scenarios

    Used to state the properties below. *)

(** The classification as the specification words it: every "near" test
    uses the 100px margin, the top test included. *)
Definition newPosition_spec (vp : Viewport) (point : Point) : DockPosition :=
  let nearLeft := Qltb (point_x point) 100 in
  let nearRight := Qgtb (point_x point) (innerWidth vp - 100) in
  let nearTop := Qltb (point_y point) 100 in
  let nearBottom := Qgtb (point_y point) (innerHeight vp - 100) in
  if nearLeft && nearTop then DockTopLeft
  else if nearRight && nearTop then DockTopRight
  else if nearLeft && nearBottom then DockBottomLeft
  else if nearRight && nearBottom then DockBottomRight
  else if nearLeft then DockLeft
  else if nearRight then DockRight
  else if nearTop then DockTop
  else DockBottom.

Definition fullHD : Viewport := mkViewport 1920 1080.

(** Every field that neither the geometry nor the flags [maximized] and
    [snapped] covers. *)
Definition sameIdentity (w w' : Window) : Prop :=
  id w' = id w /\ title w' = title w /\ icon w' = icon w
  /\ component w' = component w /\ minimized w' = minimized w
  /\ isResizing w' = isResizing w.

Definition sameGeometry (w w' : Window) : Prop :=
  x w' = x w /\ y w' = y w /\ width w' = width w /\ height w' = height w.

(** A Terminal window maximized on a 1920x1080 viewport. *)
Definition maximizedTerminal : Window :=
  mkWindow "window-1" "Terminal" IconTerminal 0 40 1920 1040
           false true (Some TerminalApp) None false.

Definition plainFiles : Window :=
  mkWindow "window-2" "Files" IconFolderOpen 150 160 900 700
           false false (Some FilesApp) None false.

Definition twoWindows : Shell :=
  initialShell |> setWindows [maximizedTerminal; plainFiles]
               |> setListenerWindows [maximizedTerminal; plainFiles].

(** Window [w'] is [w] with at most the [minimized] flag changed. *)
Definition sameButMinimized (w w' : Window) : Prop :=
  id w' = id w /\ title w' = title w /\ icon w' = icon w
  /\ x w' = x w /\ y w' = y w /\ width w' = width w /\ height w' = height w
  /\ maximized w' = maximized w /\ component w' = component w
  /\ snapped w' = snapped w /\ isResizing w' = isResizing w.

(** A minimized Terminal window next to a Files window. *)
Definition minimizedTerminal : Window :=
  mkWindow "window-1" "Terminal" IconTerminal 120 90 900 700
           true false (Some TerminalApp) None false.

Definition terminalApp : App :=
  mkApp "terminal" "Terminal" IconTerminal "from-green-500 to-green-600"
        (Some TerminalApp).

Definition positionOk (w : Window) : Prop := 0 <= x w /\ 40 <= y w.

(** What one drag update does to a window, for the drag recorded in [d]
    and the pointer at [e]. *)
Definition dragOne (d : DragRef) (e : MouseEvent) (w : Window) : Window :=
  if String.eqb (id w) (drag_windowId d) && negb (maximized w)
  then w |> with_x (Qmax 0 (x w + (clientX e - drag_startX d)))
         |> with_y (Qmax 40 (y w + (clientY e - drag_startY d)))
         |> with_snapped None
  else w.

(** The Files window of [twoWindows] grabbed at (200, 170). *)
Definition draggingFiles : Shell :=
  twoWindows |> setDragRef (Some (mkDragRef "window-2" 200 170))
             |> setDraggingWindow (Some "window-2").

(** Maximized windows are returned as they are by a drag update. *)
Definition keptIfMaximized (w w' : Window) : Prop :=
  maximized w = true -> w' = w.

(** The desktop after Terminal has been opened from the launcher on a
    fresh shell, with [Date.now() = 1700000000000] and both random
    numbers 0: one 900x700 window at (100, 100). *)
Definition terminalOpen : Shell :=
  selectLauncherEntry terminalApp 1700000000000 0 0 initialShell.

Definition terminalId : string := "window-1700000000000".

(** The Terminal window grabbed at (300, 110) and dragged to (400, 10),
    ten pixels under the top edge, in the left half of the screen. *)
Definition draggedToTopBand : Shell :=
  onMouseMove fullHD (mkMouseEvent 400 10 false false)
    (onWindowMouseDown (mkMouseEvent 300 110 false false) terminalId
                       terminalOpen).

Definition sizeOk (w : Window) : Prop := 300 <= width w /\ 200 <= height w.

(** The handles whose [case] assigns [newWidth], and those whose [case]
    assigns [newHeight]. *)
Definition changesWidth (h : Handle) : bool :=
  match h with
  | HBottom | HTop => false
  | _ => true
  end.

Definition changesHeight (h : Handle) : bool :=
  match h with
  | HRight | HLeft => false
  | _ => true
  end.

(** A resize gesture: pointer-down on handle [h] of window [wid], then
    pointer moves. *)
Definition resizeGesture (vp : Viewport) (down : MouseEvent) (wid : string)
    (h : Handle) (moves : list MouseEvent) (s : Shell) : Shell :=
  fold_left (resizeUpdate vp) moves (onResizeHandleMouseDown down wid h s).

(** What one resize update does to a window of the listener's list. *)
Definition resizeOne (vp : Viewport) (rs : ResizeState) (e : MouseEvent)
    (w : Window) : Window :=
  if negb (String.eqb (id w) (windowId rs)) then w else resizeWindow vp rs e w.

Definition sizesOk (s : Shell) : Prop :=
  Forall sizeOk (windows s) /\ Forall sizeOk (listenerWindows s).

(** A viewport 800 wide and 200 high. *)
Definition lowViewport : Viewport := mkViewport 800 200.

(** Terminal opened, then maximized and restored on [lowViewport]: the
    window keeps the maximized geometry, (0, 40, 800, 160). *)
Definition restoredOnLowViewport : Shell :=
  dispatch (maximizeWindow lowViewport terminalId)
    (dispatch (maximizeWindow lowViewport terminalId) terminalOpen).

(** Terminal opened at (100, 100), dragged by its title bar from
    (500, 110) to (500, 390) and released: it now sits at (100, 380) and
    its bottom edge is the bottom of the 1920x1080 viewport. *)
Definition terminalAtBottom : Shell :=
  dragGesture fullHD (mkMouseEvent 500 110 false false) terminalId
              [mkMouseEvent 500 390 false false]
              (mkMouseEvent 500 390 false false) terminalOpen.

Definition filesApp : App :=
  mkApp "files" "Files" IconFolderOpen "from-blue-500 to-blue-600"
        (Some FilesApp).

(** The launcher overlay opened while a Terminal window exists. *)
Definition launcherOverTerminal : Shell := openLauncher terminalOpen.

(** *** What is rendered (desktop.tsx:1040-1041, 1239-1328) *)

(** The windows that are drawn: [windows.filter((w) => !w.minimized)]. *)
Definition visibleWindows (s : Shell) : list Window :=
  filter (fun w => negb (minimized w)) (windows s).

(** The running mark of a dock entry:
    [windows.some((w) => w.title === app.name)]. *)
Definition isRunning (s : Shell) (app : App) : bool :=
  existsb (fun w => String.eqb (title w) (app_name app)) (windows s).

(** The windows that get a dock item of their own:
    [windows.filter((w) => !dockApps.some((app) => app.name === w.title))]. *)
Definition extraDockWindows (s : Shell) : list Window :=
  filter (fun w =>
            negb (existsb (fun app => String.eqb (app_name app) (title w))
                          dockApps))
         (windows s).

(** The [onClick] of such a dock item (desktop.tsx:1297-1302); [window]
    is the rendered window the item stands for. *)
Definition activateFromDock (window : Window) (r s : Shell) : Shell :=
  (if minimized window
   then s |> setWindows
               (map (fun w => if String.eqb (id w) (id window)
                              then with_minimized false w else w)
                    (windows r))
   else s)
    |> setActiveWindow (Some (id window)).

(** *** Launcher filter (desktop.tsx:991-992) *)

(** [toLowerCase] on a string of ASCII characters: the letters A-Z move
    to a-z, every other character stays. *)
Definition lowerAscii (c : ascii) : ascii :=
  let n := nat_of_ascii c in
  if (65 <=? n)%nat && (n <=? 90)%nat then ascii_of_nat (n + 32) else c.

Fixpoint toLowerCase (s : string) : string :=
  match s with
  | EmptyString => EmptyString
  | String c s' => String (lowerAscii c) (toLowerCase s')
  end.

(** [s.startsWith(sub)], the test [includes] makes at each offset. *)
Fixpoint startsWith (s sub : string) : bool :=
  match sub, s with
  | EmptyString, _ => true
  | String _ _, EmptyString => false
  | String b sub', String a s' => Ascii.eqb a b && startsWith s' sub'
  end.

(** [s.includes(sub)]: [sub] occurs in [s] at some offset. *)
Fixpoint includes (s sub : string) : bool :=
  startsWith s sub
  || match s with
     | EmptyString => false
     | String _ s' => includes s' sub
     end.

(** The entries the launcher grid shows for [searchQuery]. *)
Definition launcherEntries (searchQuery : string) : list App :=
  filter (fun app => includes (toLowerCase (app_name app))
                              (toLowerCase searchQuery))
         desktopApps.

(** *** Dock layout (desktop.tsx:191-241, 1213) *)

(** The string value of a [DockPosition]. *)
Definition dockPositionName (p : DockPosition) : string :=
  match p with
  | DockBottom => "bottom"
  | DockTop => "top"
  | DockLeft => "left"
  | DockRight => "right"
  | DockBottomLeft => "bottom-left"
  | DockBottomRight => "bottom-right"
  | DockTopLeft => "top-left"
  | DockTopRight => "top-right"
  end.

(** The [className] returned by [getDockPositionStyles]. *)
Definition getDockPositionStyles (p : DockPosition) : string :=
  let baseStyles := "absolute flex items-center gap-2" in
  match p with
  | DockBottom =>
      baseStyles ++ " bottom-4 left-1/2 transform -translate-x-1/2 flex-row"
  | DockTop =>
      baseStyles ++ " top-16 left-1/2 transform -translate-x-1/2 flex-row"
  | DockLeft =>
      baseStyles ++ " left-4 top-1/2 transform -translate-y-1/2 flex-col"
  | DockRight =>
      baseStyles ++ " right-4 top-1/2 transform -translate-y-1/2 flex-col"
  | DockBottomLeft => baseStyles ++ " bottom-4 left-4 flex-row"
  | DockBottomRight => baseStyles ++ " bottom-4 right-4 flex-row"
  | DockTopLeft => baseStyles ++ " top-16 left-4 flex-row"
  | DockTopRight => baseStyles ++ " top-16 right-4 flex-row"
  end.

(** The [className] of the item row inside the dock (desktop.tsx:1213). *)
Definition dockItemsClassName (p : DockPosition) : string :=
  "flex items-center gap-2 "
  ++ (if includes (dockPositionName p) "left"
         || includes (dockPositionName p) "right"
      then "flex-col" else "flex-row").

(** *** Runs of operations *)

(** One launch: the app and the values [Date.now()] and [Math.random()]
    return while [openApp] runs. *)
Record Launch := mkLaunch {
  launch_app : App;
  launch_now : Z;
  launch_rx : Q;
  launch_ry : Q
}.

(** Clock values that strictly increase and all lie at or after [from]. *)
Fixpoint clockIncreases (from : Z) (ls : list Launch) : Prop :=
  match ls with
  | [] => True
  | l :: ls' => (from <= launch_now l)%Z /\ clockIncreases (launch_now l + 1) ls'
  end.

(** The path of one window through a list of drag updates: each update
    moves it by the pointer delta since the previous pointer position. *)
Fixpoint dragPath (d : DragRef) (es : list MouseEvent) (w : Window) : Window :=
  match es with
  | [] => w
  | e :: es' =>
      dragPath (mkDragRef (drag_windowId d) (clientX e) (clientY e)) es'
               (dragOne d e w)
  end.

(** The pointer is within 50px of a screen edge. *)
Definition nearEdge (vp : Viewport) (e : MouseEvent) : Prop :=
  clientY e < 50 \/ clientX e < 50
  \/ innerWidth vp - 50 < clientX e \/ innerHeight vp - 50 < clientY e.

(** The window's box lies inside the viewport, under the top bar. *)
Definition insideViewport (vp : Viewport) (w : Window) : Prop :=
  0 <= x w /\ 40 <= y w
  /\ x w + width w <= innerWidth vp /\ y w + height w <= innerHeight vp.


(** *** The shell as a state machine *)

(** What can happen on the desktop, one constructor per event handler
    bound in the rendered tree or registered on the browser window: a
    launch from the dock, the launcher grid or the desktop icon; the
    launcher button and the click outside the launcher; the three title
    bar buttons; a click on a snap-zone overlay; a click on the dock item
    of a window outside the fixed six; pointer-down on a window or on a
    resize handle; the root element's handlers of pointer move and
    pointer-up; the browser window's listeners of pointer move and
    pointer-up; the start and the end of a dock drag. *)
Inductive Action :=
  | ALaunch (l : Launch)
  | AOpenLauncher
  | ADismissLauncher
  | AClose (wid : string)
  | AMinimize (wid : string)
  | AMaximize (wid : string)
  | ASnapOverlay (zone : SnapZone)
  | AActivateFromDock (i : nat)
  | AWindowMouseDown (e : MouseEvent) (wid : string)
  | AResizeHandleMouseDown (e : MouseEvent) (wid : string) (h : Handle)
  | ARootMouseMove (e : MouseEvent)
  | AListenerMouseMove (e : MouseEvent)
  | ARootMouseUp (e : MouseEvent)
  | AListenerMouseUp
  | ADockDragStart
  | ADockDragEnd (p : Point).

(** One action, run by a handler that belongs to render [r], on the
    committed state [s].  A mounted element carries the handlers of the
    current render ([r] is [s]); an element that [AnimatePresence] keeps
    on screen while it animates out (a snap-zone overlay, the launcher
    grid, a closed or minimized window, a dock item) carries those of the
    last render it was part of; the listeners on the browser window are
    those of the render in which the effect last ran; and two handlers
    that run before the next render (the root handler and the listener
    of one pointer event, say) share one closure while the second writes
    to the store the first has left.  The snap-zone overlays belong to
    renders in which [showSnapZones] holds and their [onClick] is
    [draggingWindow && snapWindow(draggingWindow, zone)]; the dock item
    [i] is the one of the [i]-th window of [extraDockWindows]; the
    listener of pointer moves calls [handleWindowResize] when its
    [resizingWindow] is set.  [vp] is the viewport at the time of the
    event. *)
Definition actWith (vp : Viewport) (r s : Shell) (a : Action) : Shell :=
  match a with
  | ALaunch l =>
      openApp (launch_app l) (launch_now l) (launch_rx l) (launch_ry l) r s
  | AOpenLauncher => s |> setSearchOpen true
  | ADismissLauncher => s |> setSearchOpen false
  | AClose wid => closeWindow wid r s
  | AMinimize wid => minimizeWindow wid r s
  | AMaximize wid => maximizeWindow vp wid r s
  | ASnapOverlay zone =>
      if showSnapZones r then
        match draggingWindow r with
        | Some wid => snapWindow vp wid zone r s
        | None => s
        end
      else s
  | AActivateFromDock i =>
      match nth_error (extraDockWindows r) i with
      | Some w => activateFromDock w r s
      | None => s
      end
  | AWindowMouseDown e wid => handleWindowMouseDown e wid r s
  | AResizeHandleMouseDown e wid h => startWindowResize e wid h r s
  | ARootMouseMove e => handleWindowMouseMove vp e r s
  | AListenerMouseMove e => handleWindowResize vp e r s
  | ARootMouseUp e => handleWindowMouseUp vp e r s
  | AListenerMouseUp => handleMouseUp s
  | ADockDragStart => s |> setIsDraggingDock true
  | ADockDragEnd p => handleDockDrag vp p r s
  end.

(** One step of a run: the viewport at that moment, how many renders
    back the handler's closure lies (0 is the current render) and the
    action. *)
Record Step := mkStep {
  step_vp : Viewport;
  step_age : nat;
  step_action : Action
}.

(** The committed state of a run, given all its renders, latest first. *)
Definition committed (renders : list Shell) : Shell :=
  hd initialShell renders.

(** One step on the list of renders: the handler's closure is the render
    [step_age] back, its store the committed state, and the result is one
    more render (a step that changes nothing repeats the last one). *)
Definition stepRun (renders : list Shell) (st : Step) : list Shell :=
  let s := committed renders in
  let r := nth (step_age st) renders s in
  actWith (step_vp st) r s (step_action st) :: renders.

(** The renders of a run on a fresh desktop. *)
Definition runSteps (sts : list Step) : list Shell :=
  fold_left stepRun sts [initialShell].

(** The launches among a list of actions, in order. *)
Fixpoint launchesOf (acts : list Action) : list Launch :=
  match acts with
  | [] => []
  | ALaunch l :: acts' => l :: launchesOf acts'
  | _ :: acts' => launchesOf acts'
  end.

(** Every [Math.random()] value of the launches is at least 0. *)
Definition randomsNonNegative (ls : list Launch) : Prop :=
  Forall (fun l => 0 <= launch_rx l /\ 0 <= launch_ry l) ls.

(** No two windows of the list share a title; no two share an id, and
    every id was generated at a clock value before [from]. *)
Definition distinctWindows (from : Z) (l : list Window) : Prop :=
  NoDup (map title l) /\ NoDup (map id l)
  /\ forall w, In w l -> exists t, (t < from)%Z /\ id w = windowIdAt t.

(** What every function mapped over the window list by a handler does
    to a window: it keeps id and title, and on a viewport at least 0
    wide and 40 high it keeps the window right of the left edge and
    under the top bar. *)
Definition tame (vp : Viewport) (f : Window -> Window) : Prop :=
  forall w,
    id (f w) = id w /\ title (f w) = title w
    /\ (0 <= innerWidth vp -> 40 <= innerHeight vp ->
        positionOk w -> positionOk (f w)).

(** The handles whose [case] assigns [newX] (the left edge moves), and
    those whose [case] assigns [newY] (the top edge moves). *)
Definition movesLeftEdge (h : Handle) : bool :=
  match h with
  | HLeft | HBottomLeft | HTopLeft => true
  | _ => false
  end.

Definition movesTopEdge (h : Handle) : bool :=
  match h with
  | HTop | HTopRight | HTopLeft => true
  | _ => false
  end.

(** A whole number of pixels, small enough for sums and differences of a
    few such values to be exact in double precision. *)
Definition wholePixel (q : Q) : Prop :=
  exists z : Z, q == inject_Z z /\ (Z.abs z <= 2 ^ 40)%Z.

(** Every value of the list is a whole number of pixels. *)
Definition wholePixels (qs : list Q) : Prop := Forall wholePixel qs.

(** The launcher opened on a fresh desktop; Terminal selected in it; and
    the same entry clicked once more while the launcher animates out, so
    that the second click runs the handler of the render before the
    first click, [launcherOpen], on the state the first click committed. *)
Definition launcherOpen : Shell := openLauncher initialShell.

Definition firstClick : Shell :=
  selectLauncherEntry terminalApp 1700000000000 0 0 launcherOpen.

Definition secondClick : Shell :=
  openApp terminalApp 1700000000300 (1#2) (1#4) launcherOpen firstClick.

End Desktop.

(** * Properties *)

(** ** Numbers *)

Lemma Qltb_true (a b : Q) : Qltb a b = true <-> a < b.
Proof.
  unfold Qltb. rewrite negb_true_iff. split; intro H.
  - apply Qnot_le_lt. intro Hle. apply Qle_bool_iff in Hle. congruence.
  - destruct (Qle_bool b a) eqn:E; [|reflexivity].
    apply Qle_bool_iff in E. exfalso. apply (Qlt_not_le _ _ H E).
Qed.

Lemma Qltb_false (a b : Q) : Qltb a b = false <-> b <= a.
Proof.
  unfold Qltb. rewrite negb_false_iff. apply Qle_bool_iff.
Qed.

Lemma Qltb_reflect (a b : Q) : reflect (a < b) (Qltb a b).
Proof.
  destruct (Qltb a b) eqn:E; constructor.
  - now apply Qltb_true.
  - apply Qltb_false in E. now apply Qle_not_lt.
Qed.

(** ** Lists related position by position *)

Section Pointwise.
Context {A B : Type}.

Lemma Forall2_map_self (R : A -> B -> Prop) (f : A -> B) (l : list A) :
  (forall a, R a (f a)) -> Forall2 R l (map f l).
Proof.
  intro H. induction l as [|a l IH]; simpl; constructor; auto.
Qed.

Lemma Forall2_map_step {C : Type} (R : A -> B -> Prop) (R' : A -> C -> Prop)
      (f : B -> C) (l : list A) (l1 : list B) :
  (forall a b, R a b -> R' a (f b)) ->
  Forall2 R l l1 -> Forall2 R' l (map f l1).
Proof.
  intros H HF. induction HF; simpl; constructor; auto.
Qed.

Lemma Forall2_one (R : A -> B -> Prop) (a : A) (l' : list B) :
  Forall2 R [a] l' -> exists c, l' = [c] /\ R a c.
Proof.
  intro H. inversion H as [|a0 c l0 l1 Hc Hnil]; subst.
  inversion Hnil; subst. exists c. split; [reflexivity|assumption].
Qed.

Lemma Forall2_two (R : A -> B -> Prop) (a b : A) (l' : list B) :
  Forall2 R [a; b] l' -> exists c d, l' = [c; d] /\ R a c /\ R b d.
Proof.
  intro H. inversion H as [|a0 c l0 l1 Hc Hrest]; subst.
  apply Forall2_one in Hrest. destruct Hrest as [d [-> Hd]].
  exists c, d. repeat split; assumption.
Qed.

Lemma Forall_map_keep (P : B -> Prop) (f : B -> B) (l : list B) :
  (forall b, P b -> P (f b)) -> Forall P l -> Forall P (map f l).
Proof.
  intros H HF. induction HF; simpl; constructor; auto.
Qed.
End Pointwise.

(** ** Session gate *)

Module LoginScreenSpec.
Import LoginScreen.

Lemma truthy_string_nonempty (p : string) :
  truthy_string p = true <-> p <> "".
Proof.
  destruct p; simpl; split; intro H; congruence.
Qed.

(** C10. Submitting the form calls [onLogin] exactly when an identity is
    selected and the credential is non-empty, then exactly once and with
    the selected identity; two runs with the same selected identity and
    any two non-empty credentials make the same call, so the credential's
    content has no influence on it. *)
Theorem login_ignores_credential_content :
  (forall (selectedUser : option User) (password : string),
      (selectedUser <> None /\ password <> "" ->
       handleLogin selectedUser password = [selectedUser])
      /\ (~ (selectedUser <> None /\ password <> "") ->
          handleLogin selectedUser password = []))
  /\ (forall (u : User) (p1 p2 : string),
         p1 <> "" -> p2 <> "" ->
         handleLogin (Some u) p1 = [Some u]
         /\ handleLogin (Some u) p2 = [Some u]).
Proof.
  assert (Hcall : forall su p, su <> None /\ p <> "" -> handleLogin su p = [su]).
  { intros su p [Hu Hp]. unfold handleLogin.
    destruct su as [u|]; [|congruence].
    apply truthy_string_nonempty in Hp. simpl. now rewrite Hp. }
  split.
  - intros su p. split; [apply Hcall|].
    intro Hn. unfold handleLogin.
    destruct su as [u|]; simpl; [|reflexivity].
    destruct (truthy_string p) eqn:E; [|reflexivity].
    exfalso. apply Hn. split; [discriminate|].
    now apply truthy_string_nonempty.
  - intros u p1 p2 H1 H2. split; apply Hcall; split; (discriminate || assumption).
Qed.

Lemma login_ignores_credential_content_witness :
  handleLogin (nth_error users 0) "a" = [nth_error users 0]
  /\ handleLogin (nth_error users 0) "hunter2" = [nth_error users 0]
  /\ handleLogin None "a" = []
  /\ handleLogin (nth_error users 1) "" = [].
Proof.
  destruct login_ignores_credential_content as [Hiff Hsame].
  destruct (Hsame (mkUser "1" "Administrator" "admin"
                          (Some "/placeholder.svg?height=80&width=80"))
                  "a" "hunter2") as [Ha Hb]; try discriminate.
  split; [exact Ha|]. split; [exact Hb|]. split.
  - apply (proj2 (Hiff None "a")). intros [H _]. now apply H.
  - apply (proj2 (Hiff (nth_error users 1) "")). intros [_ H]. now apply H.
Defined.

(** *** The screen as a state machine *)

Lemma step_keeps_listed (sc : State * list (option User)) (ev : Event) :
  listed (st_selectedUser (fst sc)) -> Forall listed (snd sc) ->
  listed (st_selectedUser (fst (step sc ev)))
  /\ Forall listed (snd (step sc ev)).
Proof.
  destruct sc as [st calls]. simpl. intros Hsel Hcalls.
  destruct ev as [i|v| |]; simpl.
  - destruct (nth_error users i) as [u|] eqn:E; simpl; [|now split].
    split; [|assumption]. exists u. split; [reflexivity|].
    now apply nth_error_In with i.
  - destruct (truthy_user (st_selectedUser st)); simpl; now split.
  - destruct (truthy_user (st_selectedUser st)); simpl; now split.
  - destruct (truthy_user (st_selectedUser st)) eqn:E; simpl; [|now split].
    split; [assumption|].
    apply Forall_app. split; [assumption|].
    unfold handleLogin. rewrite E. simpl.
    destruct (truthy_string (st_password st)); constructor; auto.
Qed.

Lemma run_keeps_listed (evs : list Event) :
  listed (st_selectedUser (fst (run evs))) /\ Forall listed (snd (run evs)).
Proof.
  unfold run.
  assert (H0 : listed (st_selectedUser (fst (mountEffect initialState, @nil (option User))))
               /\ Forall listed (snd (mountEffect initialState, @nil (option User)))).
  { split; [|constructor]. eexists. split; [reflexivity|]. left. reflexivity. }
  revert H0. generalize (mountEffect initialState, @nil (option User)).
  induction evs as [|ev evs IH]; intros sc [Hs Hc]; simpl.
  - now split.
  - apply IH. now apply step_keeps_listed.
Qed.

Lemma run_app (evs evs' : list Event) :
  run (evs ++ evs') = fold_left step evs' (run evs).
Proof. unfold run. apply fold_left_app. Qed.

(** X1. Whatever the user does on the login screen, every call of
    [onLogin] carries one of the two identities of the fixed list, never
    [null] and never another record. *)
Theorem login_reports_only_listed_identities :
  forall (evs : list Event) (c : option User),
    In c (snd (run evs)) -> exists u, c = Some u /\ In u users.
Proof.
  intros evs c Hin.
  destruct (run_keeps_listed evs) as [_ H].
  rewrite Forall_forall in H. now apply H.
Qed.

Lemma login_reports_only_listed_identities_witness :
  exists u, nth_error users 1 = Some u /\ In u users.
Proof.
  destruct (login_reports_only_listed_identities
              [ClickUser 1; ChangePassword "x"; SubmitForm]
              (nth_error users 1)) as [u [Hu Hin]].
  - left. reflexivity.
  - exists u. split; assumption.
Defined.

Lemma step_without_password (sc : State * list (option User)) (ev : Event) :
  (forall v, ev = ChangePassword v -> v = "") ->
  st_password (fst sc) = "" -> snd sc = [] ->
  st_password (fst (step sc ev)) = "" /\ snd (step sc ev) = [].
Proof.
  destruct sc as [st calls]. simpl. intros Hev Hp Hc. subst calls.
  destruct ev as [i|v| |]; simpl.
  - destruct (nth_error users i); simpl; now split.
  - destruct (truthy_user (st_selectedUser st)); simpl; split;
      try assumption; try reflexivity.
    now apply Hev.
  - destruct (truthy_user (st_selectedUser st)); simpl; now split.
  - destruct (truthy_user (st_selectedUser st)) eqn:E; simpl; [|now split].
    split; [assumption|].
    unfold handleLogin. rewrite E, Hp. reflexivity.
Qed.

(** X2. As long as nothing but the empty string has been left in the
    password field, no sequence of avatar clicks, toggles and submits
    calls [onLogin]. *)
Theorem no_login_without_password :
  forall (evs : list Event),
    (forall v, In (ChangePassword v) evs -> v = "") ->
    snd (run evs) = [].
Proof.
  intros evs Hevs. unfold run.
  assert (H0 : st_password (fst (mountEffect initialState, @nil (option User))) = ""
               /\ snd (mountEffect initialState, @nil (option User)) = []).
  { split; reflexivity. }
  revert H0 Hevs. generalize (mountEffect initialState, @nil (option User)).
  induction evs as [|ev evs IH]; intros sc [Hp Hc] Hevs; simpl.
  - assumption.
  - apply IH.
    + apply step_without_password; try assumption.
      intros v ->. apply Hevs. left. reflexivity.
    + intros v Hin. apply Hevs. right. assumption.
Qed.

Lemma no_login_without_password_witness :
  snd (run [SubmitForm; ClickUser 1; ToggleShowPassword; ChangePassword "";
            SubmitForm]) = [].
Proof.
  apply no_login_without_password.
  intros v [H|[H|[H|[H|[H|[]]]]]]; try discriminate.
  now injection H as <-.
Defined.

(** X3. The submit button is disabled exactly when a submit would make
    no call: in every state the screen can reach, [disabled] is true if
    and only if submitting leaves the list of calls as it is. *)
Theorem submit_disabled_iff_no_call :
  forall (evs : list Event),
    submitDisabled (fst (run evs)) = true
    <-> snd (step (run evs) SubmitForm) = snd (run evs).
Proof.
  intro evs.
  destruct (run_keeps_listed evs) as [[u [Hsel _]] _].
  destruct (run evs) as [st calls]. simpl in *.
  unfold submitDisabled, handleLogin. rewrite Hsel. simpl.
  destruct (truthy_string (st_password st)); simpl; split; intro H.
  - discriminate.
  - exfalso. apply (f_equal (@List.length _)) in H.
    rewrite length_app in H. simpl in H. lia.
  - apply app_nil_r.
  - reflexivity.
Qed.

(** X4. The identity reported is the one chosen by the latest avatar
    click: after any history, clicking the [i]-th avatar, typing a
    non-empty password and submitting adds exactly one call, with the
    [i]-th identity of the list. *)
Theorem login_reports_latest_selection :
  forall (evs : list Event) (i : nat) (u : User) (p : string),
    nth_error users i = Some u -> p <> "" ->
    snd (run (evs ++ [ClickUser i; ChangePassword p; SubmitForm]))
    = (snd (run evs) ++ [Some u])%list.
Proof.
  intros evs i u p Hi Hp. rewrite run_app.
  destruct (run evs) as [st calls]. simpl. rewrite Hi. simpl.
  unfold handleLogin. simpl.
  apply truthy_string_nonempty in Hp. now rewrite Hp.
Qed.

Lemma login_reports_latest_selection_witness :
  snd (run ([ClickUser 0; ChangePassword "a"; SubmitForm]
            ++ [ClickUser 1; ChangePassword "b"; SubmitForm]))
  = (snd (run [ClickUser 0; ChangePassword "a"; SubmitForm])
     ++ [Some (mkUser "2" "Guest User" "guest" None)])%list.
Proof.
  apply login_reports_latest_selection; [reflexivity|discriminate].
Defined.

Lemma submit_disabled_iff_no_call_witness :
  snd (step (run [ClickUser 1; ToggleShowPassword]) SubmitForm)
  = snd (run [ClickUser 1; ToggleShowPassword]).
Proof.
  apply (proj1 (submit_disabled_iff_no_call [ClickUser 1; ToggleShowPassword])).
  reflexivity.
Defined.

End LoginScreenSpec.

(** ** Desktop shell *)

Module DesktopSpec.
Import Desktop.

(** *** Basic facts *)

Lemma with_minimized_same (w : Window) :
  with_minimized (minimized w) w = w.
Proof. now destruct w. Qed.

Lemma string_eqb_true (a b : string) : String.eqb a b = true <-> a = b.
Proof. apply String.eqb_eq. Qed.

Lemma string_eqb_false (a b : string) : String.eqb a b = false <-> a <> b.
Proof. apply String.eqb_neq. Qed.

(** *** Dock anchor *)

(** A release at (5, 120) on a 1920x1080 viewport: the source anchors the
    dock top-left, the 100px rule of the specification gives left. *)
Lemma dock_anchor_top_band_counterexample :
  dockPosition (dispatch (handleDockDrag fullHD (mkPoint 5 120)) initialShell)
  = DockTopLeft
  /\ newPosition_spec fullHD (mkPoint 5 120) = DockLeft
  /\ dockPosition (dispatch (handleDockDrag fullHD (mkPoint 5 120)) initialShell)
     <> newPosition_spec fullHD (mkPoint 5 120).
Proof.
  repeat split; try reflexivity. vm_compute. discriminate.
Qed.

(** C4 (amended). The committed anchor is chosen in priority order,
    corners before edges, with near-left [x < 100], near-right
    [x > W - 100], near-bottom [y > H - 100] and near-top [y < 164]
    (the 100px margin plus 64); nothing else in the shell changes.  A
    release at (5, 5) on 1920x1080 gives top-left, one at (960, 1070)
    gives bottom. *)
Theorem dock_anchor_classification :
  (forall (vp : Viewport) (p : Point) (s : Shell),
      let s' := dispatch (handleDockDrag vp p) s in
      let L := point_x p < 100 in
      let R := innerWidth vp - 100 < point_x p in
      let T := point_y p < 100 + 64 in
      let B := innerHeight vp - 100 < point_y p in
      s' = setDockPosition (dockPosition s') s
      /\ (L /\ T -> dockPosition s' = DockTopLeft)
      /\ (~ L /\ R /\ T -> dockPosition s' = DockTopRight)
      /\ (L /\ ~ T /\ B -> dockPosition s' = DockBottomLeft)
      /\ (~ L /\ R /\ ~ T /\ B -> dockPosition s' = DockBottomRight)
      /\ (L /\ ~ T /\ ~ B -> dockPosition s' = DockLeft)
      /\ (~ L /\ R /\ ~ T /\ ~ B -> dockPosition s' = DockRight)
      /\ (~ L /\ ~ R /\ T -> dockPosition s' = DockTop)
      /\ (~ L /\ ~ R /\ ~ T -> dockPosition s' = DockBottom))
  /\ (forall s, dockPosition (dispatch (handleDockDrag fullHD (mkPoint 5 5)) s)
                = DockTopLeft)
  /\ (forall s, dockPosition (dispatch (handleDockDrag fullHD (mkPoint 960 1070)) s)
                = DockBottom).
Proof.
  split; [|split; intro s; reflexivity].
  intros vp p s. cbv zeta.
  unfold dispatch, handleDockDrag, newPosition, Qgtb. simpl dockPosition.
  split; [reflexivity|].
  destruct (Qltb_reflect (point_x p) 100) as [HL|HL];
    destruct (Qltb_reflect (innerWidth vp - 100) (point_x p)) as [HR|HR];
    destruct (Qltb_reflect (point_y p) (100 + 64)) as [HT|HT];
    destruct (Qltb_reflect (innerHeight vp - 100) (point_y p)) as [HB|HB];
    simpl; repeat split; intros; try reflexivity; exfalso; tauto.
Qed.

Lemma dock_anchor_classification_witness :
  dockPosition (dispatch (handleDockDrag fullHD (mkPoint 1900 120)) initialShell)
  = DockTopRight
  /\ dockPosition (dispatch (handleDockDrag fullHD (mkPoint 5 5)) initialShell)
     = DockTopLeft.
Proof.
  destruct dock_anchor_classification as [Hcls [Htl _]].
  split; [|apply Htl].
  apply (Hcls fullHD (mkPoint 1900 120) initialShell).
  repeat split; vm_compute; congruence.
Defined.



(** *** Maximize *)

(** C6. [maximizeWindow] keeps the list's length and order; in every
    window with the given id it flips [maximized] and clears [snapped];
    when the flag was set (exit) the geometry keeps the stored values, when
    it was clear (entry) the geometry becomes the viewport below the top
    bar; every window with another id is returned as it was, and nothing
    but [windows] changes in the shell. *)
Theorem maximize_toggles :
  forall (vp : Viewport) (wid : string) (s : Shell),
    let s' := dispatch (maximizeWindow vp wid) s in
    s' = setWindows (windows s') s
    /\ Forall2
         (fun w w' =>
            (id w = wid ->
             maximized w' = negb (maximized w)
             /\ snapped w' = None
             /\ sameIdentity w w'
             /\ (maximized w = true -> sameGeometry w w')
             /\ (maximized w = false ->
                 x w' = 0 /\ y w' = 40 /\ width w' = innerWidth vp
                 /\ height w' = innerHeight vp - 40))
            /\ (id w <> wid -> w' = w))
         (windows s) (windows s').
Proof.
  intros vp wid s. cbv zeta. unfold dispatch, maximizeWindow.
  split; [reflexivity|].
  simpl windows. apply Forall2_map_self. intro w.
  destruct (String.eqb (id w) wid) eqn:E.
  - apply string_eqb_true in E. split; [|congruence].
    intros _. unfold sameIdentity, sameGeometry. simpl.
    repeat split; try reflexivity;
      match goal with Hm : maximized w = _ |- _ => now rewrite Hm end.
  - apply string_eqb_false in E. split; [congruence|reflexivity].
Qed.

Lemma maximize_toggles_witness :
  exists w1 w2,
    windows (dispatch (maximizeWindow fullHD "window-1") twoWindows) = [w1; w2]
    /\ maximized w1 = false /\ snapped w1 = None
    /\ sameGeometry maximizedTerminal w1
    /\ w2 = plainFiles.
Proof.
  destruct (maximize_toggles fullHD "window-1" twoWindows) as [_ H].
  apply Forall2_two in H.
  destruct H as (a1 & a2 & Heq & [Hw1 _] & [_ Hw2]).
  destruct (Hw1 eq_refl) as (Hm & Hs & _ & Hg & _).
  exists a1, a2. split; [exact Heq|].
  split; [exact Hm|]. split; [exact Hs|].
  split; [apply Hg; reflexivity|].
  apply Hw2. discriminate.
Defined.

(** *** Re-opening an app *)

(** C3 (the code at the failing input). The launcher is open on a
    fresh desktop and the Terminal entry is clicked twice, the second
    time while the launcher animates out.  After the first click the
    window list holds one window titled Terminal, so the second click
    opens an app whose name is the title of a window of the list; its
    handler belongs to the render before the first click, finds no such
    window in that render's list and commits that list with a new
    window appended.  The count is unchanged, but the window of the first
    click is gone: the list holds a window with another id at another
    place, and the active-window pointer is that new id. *)
Theorem stale_launcher_click_replaces_window :
  In terminalApp desktopApps
  /\ searchOpen launcherOpen = true /\ windows launcherOpen = []
  /\ exists w1 w2,
       windows firstClick = [w1] /\ windows secondClick = [w2]
       /\ title w1 = app_name terminalApp
       /\ title w2 = app_name terminalApp
       /\ minimized w1 = false
       /\ activeWindow firstClick = Some (id w1)
       /\ id w1 = windowIdAt 1700000000000
       /\ id w2 = windowIdAt 1700000000300
       /\ id w2 <> id w1
       /\ activeWindow secondClick = Some (id w2)
       /\ activeWindow secondClick <> Some (id w1)
       /\ ~ In w1 (windows secondClick)
       /\ x w1 == 100 /\ y w1 == 100
       /\ x w2 == 200 /\ y w2 == 150.
Proof.
  split; [left; reflexivity|]. split; [reflexivity|]. split; [reflexivity|].
  eexists. eexists.
  split; [vm_compute; reflexivity|]. split; [vm_compute; reflexivity|].
  repeat split; try reflexivity; try (vm_compute; discriminate).
  intros [H|[]]. vm_compute in H. discriminate.
Qed.

(** X28. With a handler whose closure holds the committed window list:
    when some window carries the app's name as its title, [openApp]
    takes the first such window [ex]; the window count is unchanged, the
    active-window pointer becomes [ex]'s id, the window at [ex]'s place is
    not minimized afterwards, every window keeps all its fields other
    than [minimized], windows with another id are untouched, [minimized]
    changes only from true to false, only on windows with [ex]'s id and
    only when [ex] was minimized; nothing else in the shell changes. *)
Theorem openApp_existing_window :
  forall (app : App) (now : Z) (rx ry : Q) (r s : Shell),
    windows r = windows s ->
    (exists w0, In w0 (windows s) /\ title w0 = app_name app) ->
    let s' := openApp app now rx ry r s in
    exists ex,
      find (fun w => String.eqb (title w) (app_name app)) (windows s) = Some ex
      /\ In ex (windows s) /\ title ex = app_name app
      /\ List.length (windows s') = List.length (windows s)
      /\ activeWindow s' = Some (id ex)
      /\ s' = setActiveWindow (Some (id ex)) (setWindows (windows s') s)
      /\ (exists ex', In ex' (windows s') /\ sameButMinimized ex ex'
                      /\ minimized ex' = false)
      /\ (minimized ex = false -> windows s' = windows s)
      /\ Forall2
           (fun w w' =>
              sameButMinimized w w'
              /\ (id w <> id ex -> w' = w)
              /\ (id w = id ex -> minimized ex = true -> minimized w' = false)
              /\ (minimized w = false -> minimized w' = false)
              /\ (w = ex -> minimized w' = false))
           (windows s) (windows s').
Proof.
  intros app now rx ry r s Hrs [w0 [Hin Ht]]. cbv zeta.
  unfold openApp. rewrite Hrs.
  destruct (find (fun w => String.eqb (title w) (app_name app)) (windows s))
    as [ex|] eqn:Hfind.
  2:{ exfalso. apply (find_none _ _ Hfind) in Hin.
      apply string_eqb_false in Hin. contradiction. }
  apply find_some in Hfind as Hex. destruct Hex as [Hexin Hext].
  apply string_eqb_true in Hext.
  exists ex. split; [reflexivity|]. split; [assumption|]. split; [assumption|].
  destruct (minimized ex) eqn:Hmin; simpl.
  - split; [apply length_map|]. split; [reflexivity|]. split; [reflexivity|].
    split.
    { exists (with_minimized false ex). split; [|split; [|reflexivity]].
      - apply in_map_iff. exists ex. split; [|assumption].
        now rewrite String.eqb_refl.
      - unfold sameButMinimized. simpl. repeat split. }
    split; [discriminate|].
    apply Forall2_map_self. intro w.
    destruct (String.eqb (id w) (id ex)) eqn:E.
    + apply string_eqb_true in E. unfold sameButMinimized. simpl.
      repeat split; try reflexivity; congruence.
    + apply string_eqb_false in E. unfold sameButMinimized.
      repeat split; try reflexivity; try congruence.
  - split; [reflexivity|]. split; [reflexivity|]. split; [reflexivity|].
    split.
    { exists ex. split; [assumption|]. split; [|assumption].
      unfold sameButMinimized. repeat split. }
    split; [reflexivity|].
    rewrite <- (map_id (windows s)) at 2.
    apply Forall2_map_self. intro w. unfold sameButMinimized.
    repeat split; try reflexivity; try congruence.
Qed.

Lemma openApp_existing_window_witness :
  let s := initialShell |> setWindows [minimizedTerminal; plainFiles] in
  let s' := dispatch (openApp terminalApp 1700000000000 0 0) s in
  List.length (windows s') = 2%nat
  /\ activeWindow s' = Some "window-1"
  /\ exists ex', In ex' (windows s') /\ id ex' = "window-1"
                 /\ minimized ex' = false.
Proof.
  cbv zeta.
  destruct (openApp_existing_window terminalApp 1700000000000 0 0
              (initialShell |> setWindows [minimizedTerminal; plainFiles])
              (initialShell |> setWindows [minimizedTerminal; plainFiles])
              eq_refl)
    as (ex & Hfind & _ & _ & Hlen & Hact & _ & (ex' & Hin & Hsame & Hm) & _).
  - exists minimizedTerminal. split; [left; reflexivity|reflexivity].
  - simpl in Hfind. injection Hfind as <-.
    split; [exact Hlen|]. split; [exact Hact|].
    exists ex'. split; [exact Hin|]. split; [apply Hsame|exact Hm].
Defined.

(** *** Dragging *)

Lemma dragUpdate_idle (vp : Viewport) (s : Shell) (e : MouseEvent) :
  dragRef s = None -> dragUpdate vp s e = s.
Proof.
  intro H. unfold dragUpdate, dispatch, handleWindowMouseMove. now rewrite H.
Qed.

Lemma dragUpdate_windows (vp : Viewport) (s : Shell) (e : MouseEvent) (d : DragRef) :
  dragRef s = Some d ->
  windows (dragUpdate vp s e) = map (dragOne d e) (windows s)
  /\ dragRef (dragUpdate vp s e)
     = Some (mkDragRef (drag_windowId d) (clientX e) (clientY e))
  /\ resizingWindow (dragUpdate vp s e) = resizingWindow s
  /\ listenerWindows (dragUpdate vp s e) = listenerWindows s.
Proof.
  intro H. unfold dragUpdate, dispatch, handleWindowMouseMove. rewrite H.
  repeat split.
Qed.

Lemma dragOne_positionOk (d : DragRef) (e : MouseEvent) (w : Window) :
  positionOk w -> positionOk (dragOne d e w).
Proof.
  intro Hw. unfold dragOne.
  destruct (String.eqb (id w) (drag_windowId d) && negb (maximized w)).
  - split; simpl; apply Q.le_max_l.
  - assumption.
Qed.

Lemma dragUpdate_positionOk (vp : Viewport) (s : Shell) (e : MouseEvent) :
  Forall positionOk (windows s) -> Forall positionOk (windows (dragUpdate vp s e)).
Proof.
  intro H. destruct (dragRef s) as [d|] eqn:Hd.
  - destruct (dragUpdate_windows vp s e d Hd) as [-> _].
    apply Forall_map_keep; [apply dragOne_positionOk|assumption].
  - now rewrite dragUpdate_idle.
Qed.

(** C1. One drag update, with the drag recorded in [dragRef]: the dragged
    window, unless maximized, moves by the pointer delta since the last
    update, clamped to [x >= 0] and [y >= 40], and so satisfies both
    bounds whatever its position was; every window with another id, and
    a maximized one, is returned as it was; the baseline is re-armed at
    the pointer.  Hence windows that satisfy [x >= 0] and [y >= 40] all
    still do after each update of every sequence of drag updates. *)
Theorem drag_position_invariant :
  forall (vp : Viewport),
    (forall (s : Shell) (e : MouseEvent) (d : DragRef),
        dragRef s = Some d ->
        let s' := dragUpdate vp s e in
        Forall2
          (fun w w' =>
             (id w = drag_windowId d -> maximized w = false ->
              x w' = Qmax 0 (x w + (clientX e - drag_startX d))
              /\ y w' = Qmax 40 (y w + (clientY e - drag_startY d))
              /\ 0 <= x w' /\ 40 <= y w'
              /\ width w' = width w /\ height w' = height w)
             /\ (id w <> drag_windowId d -> w' = w)
             /\ (maximized w = true -> w' = w))
          (windows s) (windows s')
        /\ dragRef s'
           = Some (mkDragRef (drag_windowId d) (clientX e) (clientY e)))
    /\ (forall (s : Shell) (es : list MouseEvent),
           Forall positionOk (windows s) ->
           Forall positionOk (windows (fold_left (dragUpdate vp) es s))).
Proof.
  intro vp. split.
  - intros s e d Hd. cbv zeta.
    destruct (dragUpdate_windows vp s e d Hd) as (-> & -> & _).
    split; [|reflexivity].
    apply Forall2_map_self. intro w. unfold dragOne.
    destruct (String.eqb (id w) (drag_windowId d)) eqn:E.
    + apply string_eqb_true in E. split; [|split; [congruence|]].
      * intros _ Hm. rewrite Hm. simpl.
        repeat split; try reflexivity; apply Q.le_max_l.
      * intro Hm. now rewrite Hm.
    + apply string_eqb_false in E.
      split; [congruence|split; reflexivity].
  - intros s es. revert s.
    induction es as [|e es IH]; intros s H; simpl.
    + assumption.
    + apply IH. now apply dragUpdate_positionOk.
Qed.

Lemma drag_position_invariant_witness :
  Forall positionOk
    (windows (fold_left (dragUpdate fullHD)
                        [mkMouseEvent 20 100 false false;
                         mkMouseEvent (-30) 5 false false]
                        draggingFiles))
  /\ dragRef (dragUpdate fullHD draggingFiles (mkMouseEvent 20 100 false false))
     = Some (mkDragRef "window-2" 20 100).
Proof.
  split.
  - apply (proj2 (drag_position_invariant fullHD)).
    unfold positionOk. repeat constructor; simpl; lra.
  - apply (proj1 (drag_position_invariant fullHD) draggingFiles
                 (mkMouseEvent 20 100 false false)
                 (mkDragRef "window-2" 200 170) eq_refl).
Defined.

(** *** Releasing the pointer *)

(** The committed list after a pointer-up is the rendered list with
    [isResizing] cleared: the [setWindows] call inside [snapWindow] is
    overwritten by the last statement of [handleWindowMouseUp]. *)
Lemma onMouseUp_windows (vp : Viewport) (e : MouseEvent) (s : Shell) :
  windows (onMouseUp vp e s) = map (with_isResizing false) (windows s).
Proof.
  unfold onMouseUp, runEffect, handleMouseUp, dispatch, handleWindowMouseUp.
  destruct (resizingWindow s); reflexivity.
Qed.

Lemma onMouseMove_no_resize (vp : Viewport) (e : MouseEvent) (s : Shell) :
  resizingWindow s = None -> onMouseMove vp e s = dragUpdate vp s e.
Proof.
  intro H. unfold onMouseMove, handleMouseMove, handleWindowResize.
  simpl. now rewrite H.
Qed.

Lemma onWindowMouseDown_windows (e : MouseEvent) (wid : string) (s : Shell) :
  windows (onWindowMouseDown e wid s) = windows s
  /\ resizingWindow (onWindowMouseDown e wid s) = resizingWindow s.
Proof.
  unfold onWindowMouseDown, dispatch, handleWindowMouseDown.
  destruct (inWindowControls e), (inResizeHandle e); split; reflexivity.
Qed.

Lemma dragOne_maximized (d : DragRef) (e : MouseEvent) (w : Window) :
  keptIfMaximized w (dragOne d e w).
Proof.
  intro Hm. unfold dragOne. rewrite Hm. simpl.
  now rewrite andb_false_r.
Qed.

Lemma moves_keep_maximized (vp : Viewport) (moves : list MouseEvent) :
  forall (l : list Window) (st : Shell),
    resizingWindow st = None ->
    Forall2 keptIfMaximized l (windows st) ->
    Forall2 keptIfMaximized l
            (windows (fold_left (fun st e => onMouseMove vp e st) moves st)).
Proof.
  induction moves as [|e moves IH]; intros l st Hr H; simpl; [assumption|].
  rewrite (onMouseMove_no_resize vp e st Hr).
  destruct (dragRef st) as [d|] eqn:Hd.
  - destruct (dragUpdate_windows vp st e d Hd) as (Hw & _ & Hrs & _).
    apply IH; [congruence|]. rewrite Hw.
    apply (Forall2_map_step keptIfMaximized); [|assumption].
    intros a b Hab Hm. rewrite (Hab Hm). now apply dragOne_maximized.
  - rewrite (dragUpdate_idle vp st e Hd). now apply IH.
Qed.

(** C7. A window-drag gesture that starts while no resize is in progress
    (pointer-down on any window, any pointer moves, pointer-up) leaves
    [x], [y], [width] and [height] of every maximized window as they
    were. *)
Theorem maximized_window_ignores_drag :
  forall (vp : Viewport) (down : MouseEvent) (wid : string)
         (moves : list MouseEvent) (up : MouseEvent) (s : Shell),
    resizingWindow s = None ->
    Forall2 (fun w w' => maximized w = true -> sameGeometry w w')
            (windows s) (windows (dragGesture vp down wid moves up s)).
Proof.
  intros vp down wid moves up s Hr. unfold dragGesture.
  rewrite onMouseUp_windows.
  destruct (onWindowMouseDown_windows down wid s) as [Hw Hrs].
  apply (Forall2_map_step keptIfMaximized).
  - intros a b Hab Hm. rewrite (Hab Hm). unfold sameGeometry. now simpl.
  - apply moves_keep_maximized; [congruence|].
    rewrite Hw. rewrite <- (map_id (windows s)) at 2.
    apply Forall2_map_self. intros w _. reflexivity.
Qed.

(** The maximized Terminal window of [twoWindows], grabbed by its title
    bar, dragged into the top-left corner and released there. *)
Lemma maximized_window_ignores_drag_witness :
  exists w1 w2,
    windows (dragGesture fullHD (mkMouseEvent 300 60 false false) "window-1"
                         [mkMouseEvent 200 60 false false;
                          mkMouseEvent 10 10 false false]
                         (mkMouseEvent 10 10 false false) twoWindows)
    = [w1; w2]
    /\ sameGeometry maximizedTerminal w1.
Proof.
  pose proof (maximized_window_ignores_drag fullHD
                (mkMouseEvent 300 60 false false) "window-1"
                [mkMouseEvent 200 60 false false;
                 mkMouseEvent 10 10 false false]
                (mkMouseEvent 10 10 false false) twoWindows eq_refl) as H.
  apply Forall2_two in H. destruct H as (w1 & w2 & Heq & H1 & _).
  exists w1, w2. split; [exact Heq|]. apply H1. reflexivity.
Defined.

(** *** Snapping on release *)

(** What [snapWindow] alone commits, as when a snap-zone overlay is
    clicked (desktop.tsx:635-743). *)
Lemma snapWindow_top_left (vp : Viewport) (wid : string) (s : Shell) :
  Forall2
    (fun w w' =>
       (id w = wid ->
        snapped w' = Some SnappedTopLeft
        /\ x w' = 0 /\ y w' = 40
        /\ width w' = innerWidth vp / 2
        /\ height w' = (innerHeight vp - 40) / 2)
       /\ (id w <> wid -> w' = w))
    (windows s) (windows (dispatch (snapWindow vp wid ZoneTopLeft) s)).
Proof.
  unfold dispatch, snapWindow. simpl windows.
  apply Forall2_map_self. intro w.
  destruct (String.eqb (id w) wid) eqn:E.
  - apply string_eqb_true in E. split; [|congruence]. intros _.
    repeat split.
  - apply string_eqb_false in E. split; [congruence|reflexivity].
Qed.

(** C5 (the code at the failing input). On a 1920x1080 viewport the
    Terminal window is dragged to (400, 10) and released there.  At the
    release the snap zones are visible, the drag is recorded and the
    release point is classified as top-left, yet the committed window is
    not snapped: its anchor is [null] and its geometry is the dragged
    one, (200, 40, 900, 700), not (0, 40, 960, 520). *)
Theorem release_in_top_band_commits_no_snap :
  showSnapZones draggedToTopBand = true
  /\ dragRef draggedToTopBand = Some (mkDragRef terminalId 400 10)
  /\ releaseZone fullHD (mkMouseEvent 400 10 false false) = Some ZoneTopLeft
  /\ exists w,
       windows (onMouseUp fullHD (mkMouseEvent 400 10 false false)
                          draggedToTopBand) = [w]
       /\ id w = terminalId
       /\ snapped w = None
       /\ x w == 200 /\ y w == 40 /\ width w == 900 /\ height w == 700
       /\ ~ x w == 0
       /\ ~ width w == innerWidth fullHD / 2
       /\ ~ height w == (innerHeight fullHD - 40) / 2.
Proof.
  split; [reflexivity|]. split; [reflexivity|]. split; [reflexivity|].
  eexists. split; [vm_compute; reflexivity|].
  repeat split; try reflexivity; vm_compute; discriminate.
Qed.

(** The release never changes a geometry or an anchor, whatever the
    state and the release point. *)
Lemma release_keeps_every_window (vp : Viewport) (e : MouseEvent) (s : Shell) :
  Forall2 (fun w w' => sameGeometry w w' /\ snapped w' = snapped w
                       /\ maximized w' = maximized w)
          (windows s) (windows (onMouseUp vp e s)).
Proof.
  rewrite onMouseUp_windows. apply Forall2_map_self.
  intro w. unfold sameGeometry. simpl. repeat split.
Qed.

(** *** Resizing *)

Lemma resizeWindow_size (vp : Viewport) (rs : ResizeState) (e : MouseEvent)
      (w : Window) :
  (changesWidth (handle rs) = true -> 300 <= width (resizeWindow vp rs e w))
  /\ (changesWidth (handle rs) = false ->
      width (resizeWindow vp rs e w) = width w)
  /\ (changesHeight (handle rs) = true ->
      200 <= height (resizeWindow vp rs e w))
  /\ (changesHeight (handle rs) = false ->
      height (resizeWindow vp rs e w) = height w).
Proof.
  unfold resizeWindow. destruct (handle rs); simpl;
    repeat split; intros; try discriminate; try reflexivity;
    apply Q.le_max_l.
Qed.

Lemma resizeWindow_sizeOk (vp : Viewport) (rs : ResizeState) (e : MouseEvent)
      (w : Window) :
  sizeOk w -> sizeOk (resizeWindow vp rs e w).
Proof.
  intros [Hw Hh].
  destruct (resizeWindow_size vp rs e w) as (W1 & W0 & H1 & H0).
  split.
  - destruct (changesWidth (handle rs)); [now apply W1|].
    now rewrite W0.
  - destruct (changesHeight (handle rs)); [now apply H1|].
    now rewrite H0.
Qed.

Lemma resizeOne_sizeOk (vp : Viewport) (rs : ResizeState) (e : MouseEvent)
      (w : Window) :
  sizeOk w -> sizeOk (resizeOne vp rs e w).
Proof.
  intro H. unfold resizeOne.
  destruct (negb (String.eqb (id w) (windowId rs)));
    [assumption|now apply resizeWindow_sizeOk].
Qed.

Lemma dragOne_sizeOk (d : DragRef) (e : MouseEvent) (w : Window) :
  sizeOk w -> sizeOk (dragOne d e w).
Proof.
  intro H. unfold dragOne.
  destruct (String.eqb (id w) (drag_windowId d) && negb (maximized w));
    assumption.
Qed.

(** During a resize the committed list is computed from the list the
    listener closed over. *)
Lemma onMouseMove_resizing (vp : Viewport) (e : MouseEvent) (s : Shell)
      (rs : ResizeState) :
  resizingWindow s = Some rs ->
  windows (onMouseMove vp e s) = map (resizeOne vp rs e) (listenerWindows s)
  /\ resizingWindow (onMouseMove vp e s) = Some rs
  /\ listenerWindows (onMouseMove vp e s) = listenerWindows s.
Proof.
  intro H. unfold onMouseMove, handleMouseMove, handleWindowResize.
  simpl resizingWindow. rewrite H.
  unfold dispatch, handleWindowMouseMove.
  destruct (dragRef s); simpl; repeat split; assumption.
Qed.

Lemma resizeUpdate_sizesOk (vp : Viewport) (s : Shell) (e : MouseEvent) :
  sizesOk s -> sizesOk (resizeUpdate vp s e).
Proof.
  intros [Hw Hl]. unfold resizeUpdate, sizesOk.
  destruct (resizingWindow s) as [rs|] eqn:Hr.
  - destruct (onMouseMove_resizing vp e s rs Hr) as (-> & _ & ->).
    split; [|assumption].
    apply Forall_map_keep; [apply resizeOne_sizeOk|assumption].
  - rewrite (onMouseMove_no_resize vp e s Hr).
    destruct (dragRef s) as [d|] eqn:Hd.
    + destruct (dragUpdate_windows vp s e d Hd) as (-> & _ & _ & ->).
      split; [|assumption].
      apply Forall_map_keep; [apply dragOne_sizeOk|assumption].
    + rewrite (dragUpdate_idle vp s e Hd). now split.
Qed.

Lemma onResizeHandleMouseDown_found (e : MouseEvent) (wid : string) (h : Handle)
      (s : Shell) (w0 : Window) :
  In w0 (windows s) -> id w0 = wid ->
  windows (onResizeHandleMouseDown e wid h s) = windows s
  /\ listenerWindows (onResizeHandleMouseDown e wid h s) = windows s
  /\ exists w, In w (windows s) /\ id w = wid
               /\ resizingWindow (onResizeHandleMouseDown e wid h s)
                  = Some (mkResizeState wid h (clientX e) (clientY e)
                                        (width w) (height w) (x w) (y w)).
Proof.
  intros Hin Hid.
  unfold onResizeHandleMouseDown, dispatch, startWindowResize.
  destruct (find (fun w => String.eqb (id w) wid) (windows s)) as [w|] eqn:Hf.
  - apply find_some in Hf. destruct Hf as [Hwin Hw].
    apply string_eqb_true in Hw.
    repeat split. exists w. repeat split; assumption.
  - exfalso. apply (find_none _ _ Hf) in Hin.
    apply string_eqb_false in Hin. contradiction.
Qed.

(** The right handle of that window is grabbed at (799, 100) and moved
    to (700, 100).  After this single resize update the window is 160
    high: the [right] case assigns the width only. *)
Lemma resize_right_handle_height_counterexample :
  exists w,
    windows (resizeGesture lowViewport (mkMouseEvent 799 100 false true)
                           terminalId HRight
                           [mkMouseEvent 700 100 false false]
                           restoredOnLowViewport) = [w]
    /\ maximized w = false
    /\ width w == 701 /\ height w == 160
    /\ ~ (300 <= width w /\ 200 <= height w).
Proof.
  eexists. split; [vm_compute; reflexivity|].
  repeat split; try reflexivity.
  intros [_ H]. vm_compute in H. now apply H.
Qed.

(** C2 (amended). Every handle floors the dimensions its case assigns,
    the width at 300 (all handles but top and bottom) and the height at
    200 (all handles but left and right), and leaves the other dimension
    of the window as it is.  Hence, when every window is at least 300
    wide and 200 high, as a newly opened window is, this still holds
    after each update of a resize gesture on a window of the list. *)
Theorem resize_floor_preserved :
  (forall (vp : Viewport) (rs : ResizeState) (e : MouseEvent) (w : Window),
      let w' := resizeWindow vp rs e w in
      (changesWidth (handle rs) = true -> 300 <= width w')
      /\ (changesWidth (handle rs) = false -> width w' = width w)
      /\ (changesHeight (handle rs) = true -> 200 <= height w')
      /\ (changesHeight (handle rs) = false -> height w' = height w))
  /\ (forall (vp : Viewport) (down : MouseEvent) (wid : string) (h : Handle)
             (moves : list MouseEvent) (s : Shell),
         (exists w0, In w0 (windows s) /\ id w0 = wid) ->
         Forall sizeOk (windows s) ->
         Forall sizeOk (windows (resizeGesture vp down wid h moves s))).
Proof.
  split; [exact resizeWindow_size|].
  intros vp down wid h moves s [w0 [Hin Hid]] Hs.
  unfold resizeGesture.
  destruct (onResizeHandleMouseDown_found down wid h s w0 Hin Hid)
    as (Hw & Hl & _).
  assert (Hinv : sizesOk (onResizeHandleMouseDown down wid h s)).
  { split; [now rewrite Hw|now rewrite Hl]. }
  revert Hinv. generalize (onResizeHandleMouseDown down wid h s).
  induction moves as [|e moves IH]; intros st Hinv; simpl.
  - apply Hinv.
  - apply IH. now apply resizeUpdate_sizesOk.
Qed.

Lemma resize_floor_preserved_witness :
  Forall sizeOk
    (windows (resizeGesture fullHD (mkMouseEvent 100 400 false true)
                            terminalId HLeft
                            [mkMouseEvent 500 400 false false;
                             mkMouseEvent 900 450 false false]
                            terminalOpen)).
Proof.
  apply (proj2 resize_floor_preserved).
  - eexists. split; [left; reflexivity|reflexivity].
  - unfold sizeOk. repeat constructor; simpl; lra.
Defined.

(** *** Keeping the resized window on screen *)

(** What the clamp at desktop.tsx:330-332 does achieve: the window never
    starts left of the screen or above the top bar, and it ends inside
    the viewport on each axis along which it fits. *)
Lemma resizeWindow_clamp (vp : Viewport) (rs : ResizeState) (e : MouseEvent)
      (w : Window) :
  let w' := resizeWindow vp rs e w in
  0 <= x w' /\ 40 <= y w'
  /\ (width w' <= innerWidth vp -> x w' + width w' <= innerWidth vp)
  /\ (40 + height w' <= innerHeight vp -> y w' + height w' <= innerHeight vp).
Proof.
  assert (Hc : forall lo v hi sz : Q,
             lo + sz <= hi -> Qmax lo (Qmin v (hi - sz)) + sz <= hi).
  { intros lo v hi sz H.
    assert (Qmax lo (Qmin v (hi - sz)) <= hi - sz); [|lra].
    apply Q.max_lub; [lra|apply Q.le_min_r]. }
  cbv zeta. unfold resizeWindow.
  destruct (handle rs); simpl;
    (split; [apply Q.le_max_l|]); (split; [apply Q.le_max_l|]);
    (split; intro H; apply Hc; lra).
Qed.

(** C8 (the code at the failing input). The top handle of that window is
    grabbed at (500, 380) and moved to the top of the screen, (500, 0).
    The update makes the window 1080 high and puts it at y = 40, so its
    bottom edge is at 1120, below the 1080 high viewport. *)
Theorem resize_top_handle_leaves_viewport :
  (exists w0,
      windows terminalAtBottom = [w0]
      /\ x w0 == 100 /\ y w0 == 380 /\ width w0 == 900 /\ height w0 == 700)
  /\ exists w,
       windows (resizeGesture fullHD (mkMouseEvent 500 380 false true)
                              terminalId HTop
                              [mkMouseEvent 500 0 false false]
                              terminalAtBottom) = [w]
       /\ x w == 100 /\ y w == 40 /\ width w == 900 /\ height w == 1080
       /\ y w + height w == 1120
       /\ ~ y w + height w <= innerHeight fullHD.
Proof.
  split.
  - eexists. split; [vm_compute; reflexivity|]. repeat split; reflexivity.
  - eexists. split; [vm_compute; reflexivity|].
    repeat split; try reflexivity.
    intro H. vm_compute in H. now apply H.
Qed.

(** *** Launcher overlay *)

(** [openApp] closes the launcher only on the path that creates a
    window. *)
Lemma openApp_searchOpen (app : App) (now : Z) (rx ry : Q) (s : Shell) :
  searchOpen (dispatch (openApp app now rx ry) s)
  = match find (fun w => String.eqb (title w) (app_name app)) (windows s) with
    | Some _ => searchOpen s
    | None => false
    end.
Proof.
  unfold dispatch, openApp.
  destruct (find (fun w => String.eqb (title w) (app_name app)) (windows s))
    as [ex|]; [|reflexivity].
  destruct (minimized ex); reflexivity.
Qed.

(** C9 (the code at the failing input). With the launcher open over a
    desktop that already has a Terminal window, selecting the Terminal
    entry (an entry of the catalog) makes that window active, creates no
    window and leaves the launcher open; selecting Files, which has no
    window, creates one and closes the launcher. *)
Theorem launcher_stays_open_on_existing_window :
  In terminalApp desktopApps
  /\ searchOpen launcherOverTerminal = true
  /\ (let s' := selectLauncherEntry terminalApp 1700000005000 0 0
                                    launcherOverTerminal in
      searchOpen s' = true
      /\ activeWindow s' = Some terminalId
      /\ List.length (windows s') = 1%nat)
  /\ (let s' := selectLauncherEntry filesApp 1700000005000 0 0
                                    launcherOverTerminal in
      searchOpen s' = false
      /\ List.length (windows s') = 2%nat).
Proof.
  split; [left; reflexivity|]. repeat split.
Qed.

(** *** The interaction state between gestures *)

(** No resize is in progress in the first render, nor after any
    pointer-up. *)
Lemma onMouseUp_ends_resize (vp : Viewport) (e : MouseEvent) (s : Shell) :
  resizingWindow initialShell = None
  /\ resizingWindow (onMouseUp vp e s) = None.
Proof.
  split; [reflexivity|].
  unfold onMouseUp, runEffect, handleMouseUp.
  destruct (resizingWindow s); reflexivity.
Qed.

Lemma terminalId_is_generated : terminalId = windowIdAt 1700000000000.
Proof. reflexivity. Qed.

(** *** Closing and minimizing *)

Lemma filter_all {A : Type} (p : A -> bool) (l : list A) :
  (forall a, In a l -> p a = true) -> filter p l = l.
Proof.
  induction l as [|a l IH]; intro H; simpl; [reflexivity|].
  rewrite (H a) by now left. f_equal. apply IH.
  intros b Hb. apply H. now right.
Qed.

(** X5. [closeWindow] keeps exactly the windows with another id, in
    their order; for an id that no window has it leaves the list as it
    is.  The active-window pointer is cleared when it was that id and is
    otherwise kept: no other window is made active in its place. *)
Theorem closeWindow_removes_by_id :
  forall (wid : string) (s : Shell),
    let s' := dispatch (closeWindow wid) s in
    windows s' = filter (fun w => negb (String.eqb (id w) wid)) (windows s)
    /\ (forall w, In w (windows s') <-> In w (windows s) /\ id w <> wid)
    /\ ((forall w, In w (windows s) -> id w <> wid) -> windows s' = windows s)
    /\ (activeWindow s = Some wid -> activeWindow s' = None)
    /\ (activeWindow s <> Some wid -> activeWindow s' = activeWindow s)
    /\ s' = setActiveWindow (activeWindow s') (setWindows (windows s') s).
Proof.
  intros wid s. cbv zeta.
  assert (Hw : windows (dispatch (closeWindow wid) s)
               = filter (fun w => negb (String.eqb (id w) wid)) (windows s)).
  { unfold dispatch, closeWindow.
    destruct (activeWindow s) as [a|]; [destruct (String.eqb a wid)|];
      reflexivity. }
  split; [exact Hw|]. split; [|split; [|split; [|split]]].
  - intro w. rewrite Hw, filter_In, negb_true_iff.
    now rewrite string_eqb_false.
  - intro Hno. rewrite Hw. apply filter_all. intros w Hin.
    apply negb_true_iff. apply string_eqb_false. now apply Hno.
  - intro Ha. unfold dispatch, closeWindow. rewrite Ha.
    now rewrite String.eqb_refl.
  - intro Ha. unfold dispatch, closeWindow.
    destruct (activeWindow s) as [a|] eqn:E; [|simpl; now rewrite E].
    destruct (String.eqb a wid) eqn:Eab; [|simpl; now rewrite E].
    apply string_eqb_true in Eab. congruence.
  - unfold dispatch, closeWindow.
    destruct s as [so ws aw dp idd ssz dw rw dr lw]. simpl.
    destruct aw as [a|]; [destruct (String.eqb a wid)|]; reflexivity.
Qed.

Lemma closeWindow_removes_by_id_witness :
  windows (dispatch (closeWindow "window-9") twoWindows) = windows twoWindows
  /\ activeWindow (dispatch (closeWindow "window-2")
                            (twoWindows |> setActiveWindow (Some "window-2")))
     = None.
Proof.
  split.
  - apply (closeWindow_removes_by_id "window-9" twoWindows).
    intros w [<-|[<-|[]]]; discriminate.
  - apply (closeWindow_removes_by_id "window-2"
             (twoWindows |> setActiveWindow (Some "window-2"))).
    reflexivity.
Defined.

Lemma existsb_map_same {A : Type} (p : A -> bool) (f : A -> A) (l : list A) :
  (forall a, p (f a) = p a) -> existsb p (map f l) = existsb p l.
Proof.
  intro H. induction l as [|a l IH]; simpl; [reflexivity|].
  now rewrite H, IH.
Qed.

(** X6. [minimizeWindow] hides without closing: no window with the
    given id is drawn afterwards, yet the list keeps its length, every
    dock entry keeps its running mark, and the active-window pointer is
    left as it was, also when it points to the window just hidden. *)
Theorem minimizeWindow_hides_keeps_running :
  forall (wid : string) (s : Shell),
    let s' := dispatch (minimizeWindow wid) s in
    (forall w, In w (visibleWindows s') -> id w <> wid)
    /\ (forall w, In w (visibleWindows s) -> id w <> wid ->
                  In w (visibleWindows s'))
    /\ List.length (windows s') = List.length (windows s)
    /\ (forall app, isRunning s' app = isRunning s app)
    /\ activeWindow s' = activeWindow s.
Proof.
  intros wid s. cbv zeta. unfold dispatch, minimizeWindow, visibleWindows.
  simpl windows. simpl activeWindow.
  split; [|split; [|split; [|split]]].
  - intros w Hin. apply filter_In in Hin. destruct Hin as [Hin Hvis].
    apply in_map_iff in Hin. destruct Hin as [w0 [Hw0 _]].
    destruct (String.eqb (id w0) wid) eqn:E.
    + subst w. simpl in Hvis. discriminate.
    + subst w. now apply string_eqb_false.
  - intros w Hin Hne. apply filter_In in Hin. destruct Hin as [Hin Hvis].
    apply filter_In. split; [|assumption].
    apply in_map_iff. exists w. split; [|assumption].
    apply string_eqb_false in Hne. now rewrite Hne.
  - apply length_map.
  - intro app. unfold isRunning. simpl windows.
    apply existsb_map_same. intro w.
    destruct (String.eqb (id w) wid); reflexivity.
  - reflexivity.
Qed.

Lemma minimizeWindow_hides_keeps_running_witness :
  In plainFiles (visibleWindows (dispatch (minimizeWindow "window-1") twoWindows)).
Proof.
  apply (minimizeWindow_hides_keeps_running "window-1" twoWindows).
  - right. left. reflexivity.
  - discriminate.
Defined.

Lemma find_map_same {A : Type} (p : A -> bool) (f : A -> A) (l : list A) :
  (forall a, p (f a) = p a) -> find p (map f l) = option_map f (find p l).
Proof.
  intro H. induction l as [|a l IH]; simpl; [reflexivity|].
  rewrite H. destruct (p a); [reflexivity|assumption].
Qed.

Lemma with_minimized_twice (w : Window) (b : bool) :
  with_minimized (minimized w) (with_minimized b w) = w.
Proof. now destruct w. Qed.

(** X7. Minimizing a window and then opening its app brings back the
    very same window list: when the first window titled with the app's
    name has id [wid] and no window with that id was minimized,
    [minimizeWindow wid] followed by [openApp] restores the list and
    makes that window active. *)
Theorem minimize_then_open_restores :
  forall (app : App) (now : Z) (rx ry : Q) (wid : string) (s : Shell)
         (ex : Window),
    find (fun w => String.eqb (title w) (app_name app)) (windows s) = Some ex ->
    id ex = wid ->
    (forall w, In w (windows s) -> id w = wid -> minimized w = false) ->
    let s' := dispatch (openApp app now rx ry)
                       (dispatch (minimizeWindow wid) s) in
    windows s' = windows s /\ activeWindow s' = Some wid.
Proof.
  intros app now rx ry wid s ex Hfind Hid Hvis. cbv zeta.
  unfold dispatch at 1. unfold openApp.
  unfold dispatch, minimizeWindow. simpl windows.
  rewrite find_map_same
    by (intro w; destruct (String.eqb (id w) wid); reflexivity).
  rewrite Hfind. simpl option_map.
  apply string_eqb_true in Hid as Heq. rewrite Heq.
  simpl. split; [|now rewrite Hid].
  rewrite map_map. rewrite <- (map_id (windows s)) at 2.
  apply map_ext_in. intros w Hin.
  destruct (String.eqb (id w) wid) eqn:E; simpl; rewrite Hid, E.
  - apply string_eqb_true in E.
    rewrite <- (Hvis w Hin E). apply with_minimized_twice.
  - reflexivity.
Qed.

Lemma minimize_then_open_restores_witness :
  windows (dispatch (openApp filesApp 1700000009000 0 0)
                    (dispatch (minimizeWindow "window-2") twoWindows))
  = windows twoWindows.
Proof.
  apply (minimize_then_open_restores filesApp 1700000009000 0 0 "window-2"
                                     twoWindows plainFiles).
  - reflexivity.
  - reflexivity.
  - intros w [<-|[<-|[]]]; intro H; try discriminate; reflexivity.
Defined.

(** *** Runs of actions *)

Lemma windowIdAt_inj (a b : Z) : windowIdAt a = windowIdAt b -> a = b.
Proof.
  unfold windowIdAt. simpl. intro H. injection H as H.
  apply DecimalZ.to_int_inj.
  assert (Hnn : forall z, Z.to_int z <> Decimal.Pos Decimal.Nil
                          /\ Z.to_int z <> Decimal.Neg Decimal.Nil).
  { intros [|p|p]; simpl; split; try discriminate; intro E; injection E as E;
      now apply DecimalPos.Unsigned.to_uint_nonnil in E. }
  apply (f_equal NilZero.int_of_string) in H.
  rewrite !NilZero.isi in H by apply Hnn.
  now injection H.
Qed.


Lemma NoDup_snoc {A : Type} (l : list A) (a : A) :
  NoDup l -> ~ In a l -> NoDup (l ++ [a]).
Proof.
  intros Hl Ha. apply NoDup_app; [assumption| |].
  - constructor; [intros []|constructor].
  - intros b Hb [<-|[]]. contradiction.
Qed.

Lemma NoDup_map_filter {A B : Type} (g : A -> B) (p : A -> bool) (l : list A) :
  NoDup (map g l) -> NoDup (map g (filter p l)).
Proof.
  induction l as [|a l IH]; simpl; intro H; [constructor|].
  inversion H as [|b l0 Hnotin Hrest]; subst.
  destruct (p a); simpl; [|now apply IH].
  constructor; [|now apply IH].
  intro Hin. apply Hnotin. apply in_map_iff in Hin.
  destruct Hin as [c [Hc Hcin]]. apply filter_In in Hcin.
  apply in_map_iff. exists c. now split.
Qed.


(** Division by two as multiplication by one half, for [lra]. *)
Ltac halves := unfold Qdiv in *; change (/ 2) with (1 # 2) in *.

Lemma tame_if (vp : Viewport) (c : Window -> bool) (f : Window -> Window) :
  tame vp f -> tame vp (fun w => if c w then f w else w).
Proof.
  intros Hf w. destruct (c w); [apply Hf|].
  split; [reflexivity|split; [reflexivity|intros; assumption]].
Qed.

Lemma tame_with_minimized (vp : Viewport) (b : bool) :
  tame vp (with_minimized b).
Proof.
  intro w. split; [reflexivity|split; [reflexivity|intros; assumption]].
Qed.

Lemma tame_with_isResizing (vp : Viewport) (b : bool) :
  tame vp (with_isResizing b).
Proof.
  intro w. split; [reflexivity|split; [reflexivity|intros; assumption]].
Qed.

Lemma tame_snapOne (vp : Viewport) (zone : SnapZone) : tame vp (snapOne vp zone).
Proof.
  intro w. split; [|split].
  - now destruct zone.
  - now destruct zone.
  - intros HW HH _. unfold positionOk.
    destruct zone; simpl; split; halves; lra.
Qed.

Lemma tame_dragOne (vp : Viewport) (d : DragRef) (e : MouseEvent) :
  tame vp (dragOne d e).
Proof.
  intro w. unfold dragOne.
  destruct (String.eqb (id w) (drag_windowId d) && negb (maximized w)).
  - split; [reflexivity|split; [reflexivity|]].
    intros; split; simpl; apply Q.le_max_l.
  - split; [reflexivity|split; [reflexivity|intros; assumption]].
Qed.

Lemma tame_resizeWindow (vp : Viewport) (rs : ResizeState) (e : MouseEvent) :
  tame vp (resizeWindow vp rs e).
Proof.
  intro w. unfold resizeWindow.
  destruct (handle rs); simpl;
    (split; [reflexivity|split; [reflexivity|]]);
    intros; split; simpl; apply Q.le_max_l.
Qed.

Lemma tame_resizeOne (vp : Viewport) (rs : ResizeState) (e : MouseEvent) :
  tame vp (resizeOne vp rs e).
Proof.
  intro w. unfold resizeOne.
  destruct (negb (String.eqb (id w) (windowId rs)));
    [|apply tame_resizeWindow].
  split; [reflexivity|split; [reflexivity|intros; assumption]].
Qed.

Lemma tame_maximize (vp : Viewport) :
  tame vp (fun w => w |> with_maximized (negb (maximized w))
                      |> with_x (if maximized w then x w else 0)
                      |> with_y (if maximized w then y w else 40)
                      |> with_width (if maximized w then width w
                                     else innerWidth vp)
                      |> with_height (if maximized w then height w
                                      else innerHeight vp - 40)
                      |> with_snapped None).
Proof.
  intro w. split; [reflexivity|split; [reflexivity|]].
  intros _ _ [Hx Hy]. unfold positionOk. simpl.
  destruct (maximized w); split; (assumption || lra).
Qed.

Lemma closeWindow_windows (wid : string) (r s : Shell) :
  windows (closeWindow wid r s)
  = filter (fun w => negb (String.eqb (id w) wid)) (windows r).
Proof.
  unfold closeWindow.
  destruct (activeWindow r) as [a|]; [destruct (String.eqb a wid)|];
    reflexivity.
Qed.

(** The four ways an action rewrites the window list, whatever render
    its handler belongs to. *)
Lemma actWith_shape (vp : Viewport) (r s : Shell) (a : Action) :
  windows (actWith vp r s a) = windows s
  \/ (exists f, tame vp f /\ windows (actWith vp r s a) = map f (windows r))
  \/ (exists p, windows (actWith vp r s a) = filter p (windows r))
  \/ (exists l nw,
         a = ALaunch l
         /\ windows (actWith vp r s a) = (windows r ++ [nw])%list
         /\ id nw = windowIdAt (launch_now l)
         /\ title nw = app_name (launch_app l)
         /\ x nw = launch_rx l * 200 + 100
         /\ y nw = launch_ry l * 200 + 100
         /\ forall w, In w (windows r) -> title w <> title nw).
Proof.
  destruct a as [l| | |wid|wid|wid|zone|i|e wid|e wid h|e|e|e| | |p];
    simpl actWith.
  - unfold openApp.
    destruct (find (fun w => String.eqb (title w) (app_name (launch_app l)))
                   (windows r)) as [ex|] eqn:Hf.
    + destruct (minimized ex); [|left; reflexivity].
      right. left. eexists. split; [|reflexivity].
      apply (tame_if vp (fun w => String.eqb (id w) (id ex))).
      apply tame_with_minimized.
    + right. right. right. exists l. eexists.
      split; [reflexivity|]. split; [reflexivity|]. simpl.
      repeat split.
      intros w Hin. apply string_eqb_false. apply (find_none _ _ Hf w Hin).
  - left; reflexivity.
  - left; reflexivity.
  - right. right. left. eexists. apply closeWindow_windows.
  - right. left. eexists. split; [|reflexivity].
    apply (tame_if vp (fun w => String.eqb (id w) wid)).
    apply tame_with_minimized.
  - right. left. eexists. split; [|reflexivity].
    apply (tame_if vp (fun w => String.eqb (id w) wid)).
    apply tame_maximize.
  - destruct (showSnapZones r); [|left; reflexivity].
    destruct (draggingWindow r) as [wid|]; [|left; reflexivity].
    right. left. eexists. split; [|reflexivity].
    apply (tame_if vp (fun w => String.eqb (id w) wid)).
    apply tame_snapOne.
  - destruct (nth_error (extraDockWindows r) i) as [w|]; [|left; reflexivity].
    unfold activateFromDock.
    destruct (minimized w); [|left; reflexivity].
    right. left. eexists. split; [|reflexivity].
    apply (tame_if vp (fun w0 => String.eqb (id w0) (id w))).
    apply tame_with_minimized.
  - unfold handleWindowMouseDown.
    destruct (inWindowControls e), (inResizeHandle e); left; reflexivity.
  - unfold startWindowResize.
    destruct (find (fun w => String.eqb (id w) wid) (windows r));
      left; reflexivity.
  - unfold handleWindowMouseMove.
    destruct (dragRef s) as [d|]; [|left; reflexivity].
    right. left. exists (dragOne d e).
    split; [apply tame_dragOne|reflexivity].
  - unfold handleWindowResize.
    destruct (resizingWindow r) as [rs|]; [|left; reflexivity].
    right. left. exists (resizeOne vp rs e).
    split; [apply tame_resizeOne|reflexivity].
  - right. left. exists (with_isResizing false).
    split; [apply tame_with_isResizing|reflexivity].
  - left; reflexivity.
  - left; reflexivity.
  - left; reflexivity.
Qed.

Section StableProperties.
Variable vp : Viewport.
Variables P P' : list Window -> Prop.
Variable K : Launch -> Prop.
Hypothesis P_mono : forall l, P l -> P' l.
Hypothesis P_map : forall f l, tame vp f -> P l -> P' (map f l).
Hypothesis P_filter : forall p l, P l -> P' (filter p l).
Hypothesis P_launch :
  forall l lst nw,
    K l -> P lst ->
    id nw = windowIdAt (launch_now l) ->
    x nw = launch_rx l * 200 + 100 -> y nw = launch_ry l * 200 + 100 ->
    (forall w, In w lst -> title w <> title nw) ->
    P' (lst ++ [nw])%list.

Lemma actWith_keeps (r s : Shell) (a : Action) :
  (forall l, a = ALaunch l -> K l) ->
  P (windows r) -> P (windows s) -> P' (windows (actWith vp r s a)).
Proof.
  intros HK Hr Hs.
  destruct (actWith_shape vp r s a)
    as [->|[[f [Hf ->]]|[[p ->]|Hlaunch]]]; auto.
  destruct Hlaunch as (l & nw & -> & -> & Hid & _ & Hx & Hy & Hnew).
  apply (P_launch l); auto.
Qed.

Lemma stepRun_keeps (renders : list Shell) (st : Step) :
  step_vp st = vp ->
  (forall l, step_action st = ALaunch l -> K l) ->
  P (windows initialShell) ->
  Forall (fun s => P (windows s)) renders ->
  Forall (fun s => P' (windows s)) (stepRun renders st).
Proof.
  intros Hvp HK H0 Hall. unfold stepRun. rewrite Hvp.
  assert (Hc : P (windows (committed renders))).
  { unfold committed. destruct renders as [|s l]; [exact H0|].
    now inversion Hall. }
  constructor.
  - apply actWith_keeps; try assumption.
    destruct (nth_in_or_default (step_age st) renders (committed renders))
      as [Hin| ->]; [|assumption].
    rewrite Forall_forall in Hall. now apply Hall.
  - apply Forall_impl with (P := fun s => P (windows s)); [|assumption].
    intros s Hs. now apply P_mono.
Qed.
End StableProperties.

Lemma map_tame_title (vp : Viewport) (f : Window -> Window) (l : list Window) :
  tame vp f -> map title (map f l) = map title l.
Proof.
  intro Hf. rewrite map_map. apply map_ext. intro w. apply (Hf w).
Qed.

Lemma map_tame_id (vp : Viewport) (f : Window -> Window) (l : list Window) :
  tame vp f -> map id (map f l) = map id l.
Proof.
  intro Hf. rewrite map_map. apply map_ext. intro w. apply (Hf w).
Qed.

Lemma distinct_map (vp : Viewport) (from : Z) (f : Window -> Window)
      (l : list Window) :
  tame vp f -> distinctWindows from l -> distinctWindows from (map f l).
Proof.
  intros Hf (Ht & Hi & Hc). unfold distinctWindows.
  rewrite (map_tame_title vp), (map_tame_id vp) by assumption.
  split; [assumption|]. split; [assumption|].
  intros w Hin. apply in_map_iff in Hin. destruct Hin as [w0 [<- Hin0]].
  destruct (Hc w0 Hin0) as [t [Hlt Hid]]. exists t. split; [assumption|].
  now rewrite (proj1 (Hf w0)).
Qed.

Lemma distinct_filter (from : Z) (p : Window -> bool) (l : list Window) :
  distinctWindows from l -> distinctWindows from (filter p l).
Proof.
  intros (Ht & Hi & Hc). split; [now apply NoDup_map_filter|].
  split; [now apply NoDup_map_filter|].
  intros w Hin. apply filter_In in Hin. now apply Hc.
Qed.

Lemma distinct_mono (from from' : Z) (l : list Window) :
  (from <= from')%Z -> distinctWindows from l -> distinctWindows from' l.
Proof.
  intros Hle (Ht & Hi & Hc). split; [assumption|]. split; [assumption|].
  intros w Hin. destruct (Hc w Hin) as [t [Hlt Hid]].
  exists t. split; [lia|assumption].
Qed.

Lemma distinct_snoc (from now : Z) (l : list Window) (nw : Window) :
  (from <= now)%Z -> id nw = windowIdAt now ->
  (forall w, In w l -> title w <> title nw) ->
  distinctWindows from l -> distinctWindows (now + 1) (l ++ [nw]).
Proof.
  intros Hle Hid Hnew (Ht & Hi & Hc). unfold distinctWindows.
  rewrite !map_app. simpl. split; [|split].
  - apply NoDup_snoc; [assumption|].
    intro Hin. apply in_map_iff in Hin. destruct Hin as [w [Hw Hwin]].
    now apply (Hnew w Hwin).
  - apply NoDup_snoc; [assumption|].
    intro Hin. apply in_map_iff in Hin. destruct Hin as [w [Hw Hwin]].
    destruct (Hc w Hwin) as [t [Hlt Hwid]].
    rewrite Hid, Hwid in Hw. apply windowIdAt_inj in Hw. lia.
  - intros w Hin. apply in_app_iff in Hin. destruct Hin as [Hin|[<-|[]]].
    + destruct (Hc w Hin) as [t [Hlt Hwid]]. exists t. split; [lia|assumption].
    + exists now. split; [lia|assumption].
Qed.

Lemma distinct_initial (from : Z) : distinctWindows from (windows initialShell).
Proof.
  split; [constructor|split; [constructor|intros w []]].
Qed.

Lemma run_keeps_distinct (sts : list Step) :
  forall (renders : list Shell) (from : Z),
    Forall (fun s => distinctWindows from (windows s)) renders ->
    clockIncreases from (launchesOf (map step_action sts)) ->
    exists from',
      Forall (fun s => distinctWindows from' (windows s))
             (fold_left stepRun sts renders).
Proof.
  induction sts as [|st sts IH]; intros renders from Hinv Hclock; simpl.
  - exists from. assumption.
  - destruct (step_action st)
      as [l| | |wid|wid|wid|zone|i|e wid|e wid h|e|e|e| | |p]
      eqn:Ha; simpl in Hclock; rewrite Ha in Hclock; simpl in Hclock.
    1:{ destruct Hclock as [Hle Hrest].
        apply (IH _ (launch_now l + 1)%Z); [|exact Hrest].
        apply (stepRun_keeps (step_vp st)
                 (distinctWindows from) (distinctWindows (launch_now l + 1))
                 (fun l0 => l0 = l)).
        - intros lst. apply distinct_mono. lia.
        - intros f lst Hf Hd. apply (distinct_mono from); [lia|].
          now apply (distinct_map (step_vp st)).
        - intros p0 lst Hd. apply (distinct_mono from); [lia|].
          now apply distinct_filter.
        - intros l0 lst nw -> Hd Hid _ _ Hnew.
          now apply (distinct_snoc from).
        - reflexivity.
        - intros l0 Hl0. rewrite Ha in Hl0. now injection Hl0 as <-.
        - apply distinct_initial.
        - assumption. }
    all: apply (IH _ from); [|exact Hclock];
      apply (stepRun_keeps (step_vp st)
               (distinctWindows from) (distinctWindows from)
               (fun _ => False));
      [intros lst Hd; exact Hd
      |intros f lst; apply (distinct_map (step_vp st))
      |intros p0 lst; apply distinct_filter
      |intros l0 lst nw []
      |reflexivity
      |intros l0 Hl0; rewrite Ha in Hl0; discriminate
      |apply distinct_initial
      |assumption].
Qed.

(** X8. As long as the clock read by successive launches strictly
    increases, no two windows carry the same title and no two carry the
    same id after any run on a fresh desktop: whatever the handlers that
    run, whatever the viewport at each of them, and whichever earlier
    render each handler's closure belongs to. *)
Theorem windows_stay_distinct :
  forall (sts : list Step) (from : Z),
    clockIncreases from (launchesOf (map step_action sts)) ->
    NoDup (map title (windows (committed (runSteps sts))))
    /\ NoDup (map id (windows (committed (runSteps sts)))).
Proof.
  intros sts from Hclock.
  destruct (run_keeps_distinct sts [initialShell] from) as [from' Hall].
  - constructor; [apply distinct_initial|constructor].
  - assumption.
  - fold (runSteps sts) in Hall.
    assert (Hc : distinctWindows from' (windows (committed (runSteps sts)))).
    { unfold committed. destruct (runSteps sts) as [|s l];
        [apply distinct_initial|now inversion Hall]. }
    destruct Hc as (Ht & Hi & _). now split.
Qed.

(** The launcher is opened, Terminal is selected, and the same entry is
    clicked again while the launcher animates out: the second click
    runs the handler of the render before the first one. *)
Lemma windows_stay_distinct_witness :
  NoDup (map title
             (windows (committed (runSteps
                [mkStep fullHD 0 AOpenLauncher;
                 mkStep fullHD 0
                        (ALaunch (mkLaunch terminalApp 1700000000000 0 0));
                 mkStep fullHD 1
                        (ALaunch (mkLaunch terminalApp 1700000000300 (1#2) 0));
                 mkStep lowViewport 0 (AMinimize terminalId);
                 mkStep fullHD 0
                        (ALaunch (mkLaunch filesApp 1700000001000 (1#2) (1#4)))])))).
Proof.
  apply (windows_stay_distinct _ 0%Z).
  simpl. repeat split; lia.
Defined.

Lemma Forall_filter_keep {A : Type} (P : A -> Prop) (p : A -> bool) (l : list A) :
  Forall P l -> Forall P (filter p l).
Proof.
  intro H. rewrite Forall_forall in *. intros a Hin.
  apply filter_In in Hin. now apply H.
Qed.

Lemma run_keeps_positions (sts : list Step) :
  Forall (fun st => 0 <= innerWidth (step_vp st)
                    /\ 40 <= innerHeight (step_vp st)) sts ->
  randomsNonNegative (launchesOf (map step_action sts)) ->
  forall (renders : list Shell),
    Forall (fun s => Forall positionOk (windows s)) renders ->
    Forall (fun s => Forall positionOk (windows s))
           (fold_left stepRun sts renders).
Proof.
  induction sts as [|st sts IH]; intros Hvps Hrand renders Hinv; simpl;
    [assumption|].
  inversion Hvps as [|st0 sts0 [HW HH] Hvps']; subst.
  assert (Hrand' : randomsNonNegative (launchesOf (map step_action sts))
                   /\ forall l, step_action st = ALaunch l ->
                                0 <= launch_rx l /\ 0 <= launch_ry l).
  { simpl in Hrand. destruct (step_action st); try (split; [assumption|discriminate]).
    inversion Hrand as [|l0 ls Hl0 Hrest]; subst.
    split; [assumption|]. intros l1 Hl1. now injection Hl1 as <-. }
  destruct Hrand' as [Hrest Hthis].
  apply IH; try assumption.
  apply (stepRun_keeps (step_vp st)
           (Forall positionOk) (Forall positionOk)
           (fun l => 0 <= launch_rx l /\ 0 <= launch_ry l)).
  - auto.
  - intros f lst Hf. apply Forall_map_keep. intro w. now apply (Hf w).
  - intros p0 lst. apply Forall_filter_keep.
  - intros l lst nw [Hrx Hry] Hlst _ Hx Hy _.
    apply Forall_app. split; [assumption|].
    constructor; [|constructor].
    unfold positionOk. rewrite Hx, Hy. split; lra.
  - reflexivity.
  - assumption.
  - constructor.
  - assumption.
Qed.

(** X9. Every window stays right of the left screen edge and under the
    40px top bar, [x >= 0] and [y >= 40], after any run on a fresh
    desktop in which the viewport is at least 40 high (and not of
    negative width) at every step: whatever the handlers that run and
    whichever earlier render each handler's closure belongs to. *)
Theorem windows_stay_under_top_bar :
  forall (sts : list Step),
    Forall (fun st => 0 <= innerWidth (step_vp st)
                      /\ 40 <= innerHeight (step_vp st)) sts ->
    randomsNonNegative (launchesOf (map step_action sts)) ->
    Forall positionOk (windows (committed (runSteps sts))).
Proof.
  intros sts Hvps Hrand.
  assert (Hall := run_keeps_positions sts Hvps Hrand [initialShell]).
  fold (runSteps sts) in Hall.
  assert (H0 : Forall positionOk (windows initialShell)) by constructor.
  assert (Hall' : Forall (fun s => Forall positionOk (windows s))
                         (runSteps sts)).
  { apply Hall. constructor; [exact H0|constructor]. }
  unfold committed. destruct (runSteps sts) as [|s l]; [apply H0|].
  inversion Hall' as [|s0 l0 Hs _]; subst. apply Hs.
Qed.

(** Terminal is dragged past the top-left corner and released (root
    handler, then the listener); a snap-zone overlay of the render before
    the release is clicked after it, on a viewport that has shrunk in
    between. *)
Lemma windows_stay_under_top_bar_witness :
  Forall positionOk
    (windows (committed (runSteps
       [mkStep fullHD 0 (ALaunch (mkLaunch terminalApp 1700000000000 0 (1#2)));
        mkStep fullHD 0
               (AWindowMouseDown (mkMouseEvent 300 210 false false) terminalId);
        mkStep fullHD 0 (ARootMouseMove (mkMouseEvent (-40) (-10) false false));
        mkStep fullHD 0 (ARootMouseUp (mkMouseEvent (-40) (-10) false false));
        mkStep fullHD 1 AListenerMouseUp;
        mkStep lowViewport 2 (ASnapOverlay ZoneBottomRight)]))).
Proof.
  apply windows_stay_under_top_bar.
  - repeat constructor; simpl; lra.
  - repeat constructor; simpl; lra.
Defined.

(** *** Opening a new window *)



(** *** Snap zones and maximize *)

(** X11. A click on a snap-zone overlay while window [wid] is being
    dragged puts every window with that id inside the viewport, under
    the top bar (viewport at least 0 wide and 40 high), sets [maximized]
    only for the maximize zone, and returns every other window as it
    was; on a viewport at least 600 wide and 440 high the snapped window
    is at least 300 wide and 200 high.  The overlays are hidden and the
    dragged-window marker is cleared. *)
Theorem snapWindow_fits_viewport :
  forall (vp : Viewport) (wid : string) (zone : SnapZone) (s : Shell),
    0 <= innerWidth vp -> 40 <= innerHeight vp ->
    let s' := dispatch (snapWindow vp wid zone) s in
    Forall2
      (fun w w' =>
         (id w = wid ->
          insideViewport vp w'
          /\ maximized w' = isMaximize zone
          /\ sameIdentity w w'
          /\ (600 <= innerWidth vp -> 440 <= innerHeight vp -> sizeOk w'))
         /\ (id w <> wid -> w' = w))
      (windows s) (windows s')
    /\ showSnapZones s' = false /\ draggingWindow s' = None.
Proof.
  intros vp wid zone s HW HH. cbv zeta. unfold dispatch, snapWindow.
  split; [|split; reflexivity]. simpl windows.
  apply Forall2_map_self. intro w.
  destruct (String.eqb (id w) wid) eqn:E.
  - apply string_eqb_true in E. split; [|congruence]. intros _.
    unfold insideViewport, sameIdentity, sizeOk.
    destruct zone; simpl; repeat split; intros; halves; lra.
  - apply string_eqb_false in E. split; [congruence|reflexivity].
Qed.

Lemma snapWindow_fits_viewport_witness :
  exists w1 w2,
    windows (dispatch (snapWindow fullHD "window-2" ZoneBottomRight) twoWindows)
    = [w1; w2]
    /\ w1 = maximizedTerminal /\ insideViewport fullHD w2 /\ sizeOk w2.
Proof.
  destruct (snapWindow_fits_viewport fullHD "window-2" ZoneBottomRight twoWindows)
    as [H _]; [simpl; lra|simpl; lra|].
  apply Forall2_two in H.
  destruct H as (w1 & w2 & Heq & [_ H1] & [H2 _]).
  destruct (H2 eq_refl) as (Hin & _ & _ & Hsz).
  exists w1, w2. split; [exact Heq|]. split; [apply H1; discriminate|].
  split; [exact Hin|]. apply Hsz; simpl; lra.
Defined.

(** X12. The snap zones tile the screen under the top bar.  With
    the mid-width line at [W / 2] and the mid-height line at
    [40 + (H - 40) / 2]: the left half spans from the left edge to the
    mid-width line and the right half from there to the right edge, both
    from the top bar to the bottom edge; the four quarters span the same
    two columns and the two rows above and below the mid-height line;
    the maximize zone spans all of it. *)
Theorem snap_zones_tile :
  forall (vp : Viewport) (w : Window),
    let box := fun zone =>
      (x (snapOne vp zone w), y (snapOne vp zone w),
       x (snapOne vp zone w) + width (snapOne vp zone w),
       y (snapOne vp zone w) + height (snapOne vp zone w)) in
    let spans := fun (b : Q * Q * Q * Q) (left top right bottom : Q) =>
      let '(bl, bt, br, bb) := b in
      bl == left /\ bt == top /\ br == right /\ bb == bottom in
    let midX := innerWidth vp / 2 in
    let midY := 40 + (innerHeight vp - 40) / 2 in
    spans (box LeftHalf) 0 40 midX (innerHeight vp)
    /\ spans (box RightHalf) midX 40 (innerWidth vp) (innerHeight vp)
    /\ spans (box ZoneTopLeft) 0 40 midX midY
    /\ spans (box ZoneTopRight) midX 40 (innerWidth vp) midY
    /\ spans (box ZoneBottomLeft) 0 midY midX (innerHeight vp)
    /\ spans (box ZoneBottomRight) midX midY (innerWidth vp) (innerHeight vp)
    /\ spans (box Maximize) 0 40 (innerWidth vp) (innerHeight vp).
Proof.
  intros vp w. cbv zeta. simpl. repeat split; halves; lra.
Qed.

(** X13. On windows that are not maximized, the maximize snap zone and
    the maximize button commit the same window list: geometry
    (0, 40, W, H - 40), [maximized] set, no snap anchor. *)
Theorem snap_maximize_is_maximize :
  forall (vp : Viewport) (wid : string) (s : Shell),
    (forall w, In w (windows s) -> id w = wid -> maximized w = false) ->
    windows (dispatch (snapWindow vp wid Maximize) s)
    = windows (dispatch (maximizeWindow vp wid) s)
    /\ Forall2
         (fun w w' =>
            id w = wid ->
            x w' = 0 /\ y w' = 40 /\ width w' = innerWidth vp
            /\ height w' = innerHeight vp - 40
            /\ maximized w' = true /\ snapped w' = None)
         (windows s) (windows (dispatch (snapWindow vp wid Maximize) s)).
Proof.
  intros vp wid s Hnm. unfold dispatch, snapWindow, maximizeWindow.
  simpl windows. split.
  - apply map_ext_in. intros w Hin.
    destruct (String.eqb (id w) wid) eqn:E; [|reflexivity].
    apply string_eqb_true in E. unfold snapOne. simpl.
    now rewrite (Hnm w Hin E).
  - apply Forall2_map_self. intros w Hid.
    apply string_eqb_true in Hid. rewrite Hid. repeat split.
Qed.

Lemma snap_maximize_is_maximize_witness :
  windows (dispatch (snapWindow fullHD "window-2" Maximize) twoWindows)
  = windows (dispatch (maximizeWindow fullHD "window-2") twoWindows).
Proof.
  apply (snap_maximize_is_maximize fullHD "window-2" twoWindows).
  intros w [<-|[<-|[]]]; intro H; try discriminate; reflexivity.
Defined.

(** X14. Pressing the maximize button twice gives the flag back but
    not the geometry: whatever the window was, after two toggles on the
    same viewport its [maximized] flag is the original one and its
    geometry is (0, 40, W, H - 40); there is no stored geometry to return
    to. *)
Theorem maximize_twice_loses_geometry :
  forall (vp : Viewport) (wid : string) (s : Shell),
    Forall2
      (fun w w' =>
         (id w = wid ->
          maximized w' = maximized w
          /\ x w' = 0 /\ y w' = 40 /\ width w' = innerWidth vp
          /\ height w' = innerHeight vp - 40
          /\ snapped w' = None)
         /\ (id w <> wid -> w' = w))
      (windows s)
      (windows (dispatch (maximizeWindow vp wid)
                         (dispatch (maximizeWindow vp wid) s))).
Proof.
  intros vp wid s. unfold dispatch, maximizeWindow. simpl windows.
  rewrite map_map. apply Forall2_map_self. intro w.
  destruct (String.eqb (id w) wid) eqn:E.
  - simpl. rewrite E. apply string_eqb_true in E.
    split; [|congruence]. intros _. simpl.
    destruct (maximized w); simpl; repeat split.
  - rewrite E. apply string_eqb_false in E.
    split; [congruence|reflexivity].
Qed.

Lemma maximize_twice_loses_geometry_witness :
  exists w1 w2,
    windows (dispatch (maximizeWindow fullHD "window-2")
                      (dispatch (maximizeWindow fullHD "window-2") twoWindows))
    = [w1; w2]
    /\ maximized w2 = false /\ width w2 = 1920 /\ w1 = maximizedTerminal.
Proof.
  pose proof (maximize_twice_loses_geometry fullHD "window-2" twoWindows) as H.
  apply Forall2_two in H.
  destruct H as (w1 & w2 & Heq & [_ H1] & [H2 _]).
  destruct (H2 eq_refl) as (Hm & _ & _ & Hw & _).
  exists w1, w2. split; [exact Heq|]. split; [exact Hm|].
  split; [exact Hw|]. apply H1. discriminate.
Defined.

(** *** More on dragging *)

Lemma fold_dragUpdate_windows (vp : Viewport) (es : list MouseEvent) :
  forall (s : Shell) (d : DragRef),
    dragRef s = Some d ->
    windows (fold_left (dragUpdate vp) es s) = map (dragPath d es) (windows s).
Proof.
  induction es as [|e es IH]; intros s d Hd; simpl.
  - symmetry. apply map_id.
  - destruct (dragUpdate_windows vp s e d Hd) as (Hw & Hd' & _).
    rewrite (IH _ _ Hd'), Hw, map_map. reflexivity.
Qed.

Lemma dragPath_follows (es : list MouseEvent) :
  forall (d : DragRef) (w : Window) (e : MouseEvent),
    id w = drag_windowId d -> maximized w = false ->
    (forall e', In e' (es ++ [e]) ->
                0 <= x w + (clientX e' - drag_startX d)
                /\ 40 <= y w + (clientY e' - drag_startY d)) ->
    let w' := dragPath d (es ++ [e]) w in
    x w' == x w + (clientX e - drag_startX d)
    /\ y w' == y w + (clientY e - drag_startY d)
    /\ width w' = width w /\ height w' = height w
    /\ maximized w' = false /\ snapped w' = None.
Proof.
  induction es as [|e0 es IH]; intros d w e Hid Hm Hfree; cbv zeta.
  - simpl. unfold dragOne.
    apply string_eqb_true in Hid. rewrite Hid, Hm. simpl.
    destruct (Hfree e (or_introl eq_refl)) as [Hx Hy].
    repeat split; try assumption; apply Q.max_r; assumption.
  - simpl.
    destruct (Hfree e0 (or_introl eq_refl)) as [Hx0 Hy0].
    assert (H1 : dragOne d e0 w
                 = w |> with_x (Qmax 0 (x w + (clientX e0 - drag_startX d)))
                     |> with_y (Qmax 40 (y w + (clientY e0 - drag_startY d)))
                     |> with_snapped None).
    { unfold dragOne. apply string_eqb_true in Hid. now rewrite Hid, Hm. }
    assert (Hx1 : x (dragOne d e0 w) == x w + (clientX e0 - drag_startX d)).
    { rewrite H1. simpl. now apply Q.max_r. }
    assert (Hy1 : y (dragOne d e0 w) == y w + (clientY e0 - drag_startY d)).
    { rewrite H1. simpl. now apply Q.max_r. }
    destruct (IH (mkDragRef (drag_windowId d) (clientX e0) (clientY e0))
                 (dragOne d e0 w) e) as (Ax & Ay & Aw & Ah & Am & As).
    + rewrite H1. simpl. assumption.
    + rewrite H1. simpl. assumption.
    + intros e' Hin. simpl.
      destruct (Hfree e' (or_intror Hin)) as [Hx' Hy']. split; lra.
    + simpl in Ax, Ay. split; [lra|]. split; [lra|].
      rewrite Aw, Ah.
      split; [now rewrite H1|]. split; [now rewrite H1|].
      split; assumption.
Qed.

(** X15. Dragging is incremental but adds up.  For a window and a
    pointer at whole-pixel coordinates: as long as no pointer position of
    the sequence would push the window left of the screen or above the
    top bar, after the last drag update the dragged window has moved by
    exactly the pointer's total displacement since the drag began; its
    size is untouched and its snap anchor is cleared. *)
Theorem drag_follows_pointer :
  forall (vp : Viewport) (s : Shell) (d : DragRef) (es : list MouseEvent)
         (e : MouseEvent),
    dragRef s = Some d ->
    wholePixel (drag_startX d) -> wholePixel (drag_startY d) ->
    (forall e', In e' (es ++ [e]) ->
                wholePixel (clientX e') /\ wholePixel (clientY e')) ->
    Forall2
      (fun w w' =>
         id w = drag_windowId d -> maximized w = false ->
         wholePixel (x w) -> wholePixel (y w) ->
         (forall e', In e' (es ++ [e]) ->
                     0 <= x w + (clientX e' - drag_startX d)
                     /\ 40 <= y w + (clientY e' - drag_startY d)) ->
         x w' == x w + (clientX e - drag_startX d)
         /\ y w' == y w + (clientY e - drag_startY d)
         /\ width w' = width w /\ height w' = height w
         /\ snapped w' = None)
      (windows s) (windows (fold_left (dragUpdate vp) (es ++ [e]) s)).
Proof.
  intros vp s d es e Hd _ _ _.
  rewrite (fold_dragUpdate_windows vp (es ++ [e]) s d Hd).
  apply Forall2_map_self. intros w Hid Hm _ _ Hfree.
  destruct (dragPath_follows es d w e Hid Hm Hfree) as (A & B & C & D & _ & E).
  repeat split; assumption.
Qed.

Lemma drag_follows_pointer_witness :
  exists w1 w2,
    windows (fold_left (dragUpdate fullHD)
                       ([mkMouseEvent 260 200 false false;
                         mkMouseEvent 400 300 false false]
                        ++ [mkMouseEvent 500 270 false false])
                       draggingFiles) = [w1; w2]
    /\ x w2 == 450 /\ y w2 == 260.
Proof.
  pose proof (drag_follows_pointer fullHD draggingFiles
                (mkDragRef "window-2" 200 170)
                [mkMouseEvent 260 200 false false;
                 mkMouseEvent 400 300 false false]
                (mkMouseEvent 500 270 false false) eq_refl) as H.
  assert (Hpx : forall z : Z, (Z.abs z <= 2 ^ 40)%Z -> wholePixel (inject_Z z)).
  { intros z Hz. exists z. split; [reflexivity|exact Hz]. }
  assert (H' := H (Hpx 200%Z ltac:(vm_compute; discriminate))
                  (Hpx 170%Z ltac:(vm_compute; discriminate))).
  clear H.
  assert (Hev : forall e', In e' ([mkMouseEvent 260 200 false false;
                                    mkMouseEvent 400 300 false false]
                                   ++ [mkMouseEvent 500 270 false false]) ->
                           wholePixel (clientX e') /\ wholePixel (clientY e')).
  { intros e' [<-|[<-|[<-|[]]]]; split;
      match goal with
      | |- wholePixel (_ (mkMouseEvent ?a ?b _ _)) =>
          simpl; eexists; split; [symmetry; apply Qred_correct|]
      end; vm_compute; discriminate. }
  apply H' in Hev. apply Forall2_two in Hev.
  destruct Hev as (w1 & w2 & Heq & _ & H2).
  exists w1, w2. split; [exact Heq|].
  destruct H2 as (Hx & Hy & _); try reflexivity.
  - apply (Hpx 150%Z). vm_compute; discriminate.
  - apply (Hpx 160%Z). vm_compute; discriminate.
  - intros e' [<-|[<-|[<-|[]]]]; simpl; split; lra.
  - simpl in Hx, Hy. split; lra.
Defined.

(** X16. The snap overlays and the release classification agree on
    the 50px edge band: after a drag update the overlays are shown
    exactly when the pointer is within 50px of an edge; the release
    handler picks a zone exactly for such points; and the zone it picks
    is never the maximize zone. *)
Theorem snap_band_consistent :
  forall (vp : Viewport) (e : MouseEvent),
    (forall (s : Shell) (d : DragRef),
        dragRef s = Some d ->
        (showSnapZones (dragUpdate vp s e) = true <-> nearEdge vp e))
    /\ (releaseZone vp e <> None <-> nearEdge vp e)
    /\ releaseZone vp e <> Some Maximize.
Proof.
  intros vp e. unfold nearEdge.
  split; [|split].
  - intros s d Hd. unfold dragUpdate, dispatch, handleWindowMouseMove.
    rewrite Hd. simpl showSnapZones. unfold Qgtb.
    destruct (Qltb_reflect (clientY e) 50);
      destruct (Qltb_reflect (clientX e) 50);
      destruct (Qltb_reflect (innerWidth vp - 50) (clientX e));
      destruct (Qltb_reflect (innerHeight vp - 50) (clientY e));
      simpl; split; intro H; try reflexivity; try discriminate; tauto.
  - unfold releaseZone, Qgtb.
    destruct (Qltb_reflect (clientY e) 50);
      destruct (Qltb_reflect (clientX e) 50);
      destruct (Qltb_reflect (innerWidth vp - 50) (clientX e));
      destruct (Qltb_reflect (innerHeight vp - 50) (clientY e));
      destruct (Qltb (clientX e) (innerWidth vp / 2));
      simpl; split; intro H; try discriminate; try congruence; tauto.
  - unfold releaseZone.
    destruct (Qltb (clientY e) 50);
      [destruct (Qltb (clientX e) (innerWidth vp / 2)); discriminate|].
    destruct (Qgtb (clientY e) (innerHeight vp - 50));
      [destruct (Qltb (clientX e) (innerWidth vp / 2)); discriminate|].
    destruct (Qltb (clientX e) 50); [discriminate|].
    destruct (Qgtb (clientX e) (innerWidth vp - 50)); discriminate.
Qed.

Lemma snap_band_consistent_witness :
  showSnapZones (dragUpdate fullHD draggingFiles
                            (mkMouseEvent 1900 500 false false)) = true
  /\ releaseZone fullHD (mkMouseEvent 1900 500 false false) <> None.
Proof.
  destruct (snap_band_consistent fullHD (mkMouseEvent 1900 500 false false))
    as (Hshow & Hrel & _).
  assert (Hnear : nearEdge fullHD (mkMouseEvent 1900 500 false false)).
  { right. right. left. simpl. lra. }
  split.
  - apply (Hshow draggingFiles (mkDragRef "window-2" 200 170) eq_refl).
    exact Hnear.
  - apply Hrel. exact Hnear.
Defined.

(** X17. A pointer-up always ends the interaction: no drag is
    recorded, no window is marked as dragged or as resizing, no resize
    is in progress and the overlays are hidden; the active window, the
    launcher and the dock anchor are as before, and no window changes
    anything but its [isResizing] mark. *)
Theorem pointer_up_returns_to_idle :
  forall (vp : Viewport) (e : MouseEvent) (s : Shell),
    let s' := onMouseUp vp e s in
    dragRef s' = None /\ draggingWindow s' = None
    /\ resizingWindow s' = None /\ showSnapZones s' = false
    /\ Forall (fun w => isResizing w = false) (windows s')
    /\ windows s' = map (with_isResizing false) (windows s)
    /\ activeWindow s' = activeWindow s
    /\ searchOpen s' = searchOpen s
    /\ dockPosition s' = dockPosition s.
Proof.
  intros vp e s. cbv zeta.
  assert (Hw := onMouseUp_windows vp e s).
  split; [|split; [|split; [|split; [|split; [|split; [exact Hw|]]]]]].
  5:{ rewrite Hw. apply Forall_forall. intros w Hin.
      apply in_map_iff in Hin. now destruct Hin as [w0 [<- _]]. }
  all: unfold onMouseUp, runEffect, handleMouseUp, dispatch, handleWindowMouseUp.
  all: destruct (resizingWindow s); try reflexivity.
  all: destruct (dragRef s); try (repeat split; reflexivity).
  all: destruct (showSnapZones s); try (repeat split; reflexivity).
  all: destruct (releaseZone vp e); repeat split; reflexivity.
Qed.

(** X18. A pointer-down on a title bar button never starts a drag:
    from a state with no drag and no resize in progress, a pointer-down
    inside [.window-controls] followed by any pointer moves leaves the
    whole shell as it was. *)
Theorem control_click_does_not_drag :
  forall (vp : Viewport) (down : MouseEvent) (wid : string)
         (moves : list MouseEvent) (s : Shell),
    dragRef s = None -> resizingWindow s = None ->
    inWindowControls down = true ->
    fold_left (fun st e => onMouseMove vp e st) moves
              (onWindowMouseDown down wid s) = s.
Proof.
  intros vp down wid moves s Hd Hr Hctl.
  assert (H0 : onWindowMouseDown down wid s = s).
  { unfold onWindowMouseDown, dispatch, handleWindowMouseDown.
    now rewrite Hctl. }
  rewrite H0. induction moves as [|e moves IH]; simpl; [reflexivity|].
  rewrite (onMouseMove_no_resize vp e s Hr), (dragUpdate_idle vp s e Hd).
  exact IH.
Qed.

Lemma control_click_does_not_drag_witness :
  fold_left (fun st e => onMouseMove fullHD e st)
            [mkMouseEvent 700 300 false false]
            (onWindowMouseDown (mkMouseEvent 1000 60 true false) "window-2"
                               twoWindows)
  = twoWindows.
Proof.
  apply control_click_does_not_drag; reflexivity.
Defined.

(** *** More on resizing *)

(** Replace every [Qmax], [Qmin] and [Qeq_bool] test by what it is known
    to satisfy, then leave the linear arithmetic to [lra]. *)
Ltac split_tests :=
  repeat match goal with
         | |- context [Qeq_bool ?a ?b] =>
             let E := fresh "E" in
             destruct (Qeq_bool a b) eqn:E;
             [apply Qeq_bool_iff in E|apply Qeq_bool_neq in E]
         end.

Ltac name_extrema :=
  repeat match goal with
         | |- context [Qmax ?a ?b] =>
             let m := fresh "m" in
             let Hm := fresh "Hm" in
             pose proof (Q.max_spec a b) as Hm;
             set (m := Qmax a b) in *; clearbody m
         | |- context [Qmin ?a ?b] =>
             let m := fresh "m" in
             let Hm := fresh "Hm" in
             pose proof (Q.min_spec a b) as Hm;
             set (m := Qmin a b) in *; clearbody m
         | H : context [Qmax ?a ?b] |- _ =>
             let m := fresh "m" in
             let Hm := fresh "Hm" in
             pose proof (Q.max_spec a b) as Hm;
             set (m := Qmax a b) in *; clearbody m
         | H : context [Qmin ?a ?b] |- _ =>
             let m := fresh "m" in
             let Hm := fresh "Hm" in
             pose proof (Q.min_spec a b) as Hm;
             set (m := Qmin a b) in *; clearbody m
         end.

Ltac extrema_lra :=
  split_tests; name_extrema;
  repeat match goal with
         | H : _ \/ _ |- _ => destruct H as [[? ?]|[? ?]]
         end;
  lra.

Lemma resize_moves_keep_closure (vp : Viewport) (rs : ResizeState)
      (es : list MouseEvent) :
  forall (s : Shell),
    resizingWindow s = Some rs ->
    resizingWindow (fold_left (resizeUpdate vp) es s) = Some rs
    /\ listenerWindows (fold_left (resizeUpdate vp) es s) = listenerWindows s.
Proof.
  induction es as [|e es IH]; intros s Hr; simpl; [now split|].
  destruct (onMouseMove_resizing vp e s rs Hr) as (_ & Hr' & Hl').
  destruct (IH (resizeUpdate vp s e) Hr') as [A B].
  split; [assumption|]. unfold resizeUpdate in *. congruence.
Qed.

(** X19. Resizing is absolute, not incremental: while a resize is in
    progress the committed window list depends only on the state at the
    start of the resize and on the last pointer position; the pointer
    moves in between leave no trace. *)
Theorem resize_depends_on_last_pointer :
  forall (vp : Viewport) (s : Shell) (rs : ResizeState)
         (es : list MouseEvent) (e : MouseEvent),
    resizingWindow s = Some rs ->
    windows (fold_left (resizeUpdate vp) (es ++ [e]) s)
    = windows (resizeUpdate vp s e).
Proof.
  intros vp s rs es e Hr. rewrite fold_left_app. simpl.
  destruct (resize_moves_keep_closure vp rs es s Hr) as [Hr' Hl'].
  unfold resizeUpdate at 1.
  destruct (onMouseMove_resizing vp e _ rs Hr') as (-> & _).
  rewrite Hl'. unfold resizeUpdate.
  now destruct (onMouseMove_resizing vp e s rs Hr) as (-> & _).
Qed.

Lemma resize_depends_on_last_pointer_witness :
  windows (resizeGesture fullHD (mkMouseEvent 100 400 false true) terminalId
                         HLeft
                         ([mkMouseEvent 900 100 false false;
                           mkMouseEvent 0 0 false false]
                          ++ [mkMouseEvent 60 400 false false])
                         terminalOpen)
  = windows (resizeGesture fullHD (mkMouseEvent 100 400 false true) terminalId
                           HLeft [mkMouseEvent 60 400 false false]
                           terminalOpen).
Proof.
  unfold resizeGesture.
  apply (resize_depends_on_last_pointer fullHD _
           (mkResizeState terminalId HLeft 100 400 900 700
                          (0 * 200 + 100) (0 * 200 + 100))).
  reflexivity.
Defined.

(** Discharge [wholePixel q] for a closed [q]. *)
Ltac pixel :=
  match goal with
  | |- wholePixel ?q =>
      exists (Qnum (Qred q));
      split; [vm_compute; reflexivity|vm_compute; discriminate]
  end.

(** X20. Dragging the left edge keeps the right edge where it was at
    the start of the resize, also when the width is held at its floor.
    For a viewport, a pointer and a starting geometry in whole pixels:
    provided that edge lies inside the viewport and the new width still
    fits left of it, [x + width] equals the starting right edge.  The
    same holds for the top edge and the bottom edge. *)
Theorem resize_keeps_opposite_edge :
  forall (vp : Viewport) (rs : ResizeState) (e : MouseEvent) (w : Window),
    wholePixels [innerWidth vp; innerHeight vp; clientX e; clientY e;
                 startX rs; startY rs; startWidth rs; startHeight rs;
                 startWindowX rs; startWindowY rs] ->
    let w' := resizeWindow vp rs e w in
    (movesLeftEdge (handle rs) = true ->
     startWindowX rs + startWidth rs <= innerWidth vp ->
     width w' <= startWindowX rs + startWidth rs ->
     x w' + width w' == startWindowX rs + startWidth rs)
    /\ (movesTopEdge (handle rs) = true ->
        startWindowY rs + startHeight rs <= innerHeight vp ->
        40 + height w' <= startWindowY rs + startHeight rs ->
        y w' + height w' == startWindowY rs + startHeight rs).
Proof.
  intros vp rs e w _. cbv zeta. unfold resizeWindow.
  destruct (handle rs); simpl; split; intros Hh Hin Hfit;
    try discriminate; extrema_lra.
Qed.

Lemma resize_keeps_opposite_edge_witness :
  let rs := mkResizeState "window-2" HTopLeft 150 160 900 700 150 160 in
  let w' := resizeWindow fullHD rs (mkMouseEvent 1500 900 false false)
                         plainFiles in
  x w' + width w' == 1050 /\ y w' + height w' == 860.
Proof.
  cbv zeta.
  destruct (resize_keeps_opposite_edge fullHD
              (mkResizeState "window-2" HTopLeft 150 160 900 700 150 160)
              (mkMouseEvent 1500 900 false false) plainFiles) as [Hx Hy].
  { repeat constructor; pixel. }
  split.
  - rewrite Hx; [reflexivity|reflexivity|simpl; lra|vm_compute; discriminate].
  - rewrite Hy; [reflexivity|reflexivity|simpl; lra|vm_compute; discriminate].
Defined.

(** X21. Grabbing a handle without moving the pointer changes no
    geometry: for a window in whole pixels that meets the size floors and
    lies inside a viewport in whole pixels, a resize update at the very
    point where the handle was grabbed leaves [x], [y], [width] and
    [height] at their values, for each of the eight handles. *)
Theorem resize_without_movement :
  forall (vp : Viewport) (h : Handle) (e : MouseEvent) (w : Window),
    wholePixels [innerWidth vp; innerHeight vp;
                 x w; y w; width w; height w] ->
    sizeOk w -> insideViewport vp w ->
    let rs := mkResizeState (id w) h (clientX e) (clientY e)
                            (width w) (height w) (x w) (y w) in
    let w' := resizeWindow vp rs e w in
    x w' == x w /\ y w' == y w
    /\ width w' == width w /\ height w' == height w.
Proof.
  intros vp h e w _ [Hw Hh] (Hx & Hy & Hr & Hb). cbv zeta.
  unfold resizeWindow.
  destruct h; simpl; repeat split; extrema_lra.
Qed.

Lemma resize_without_movement_witness :
  let rs := mkResizeState "window-2" HBottomLeft 150 859 900 700 150 160 in
  let w' := resizeWindow fullHD rs (mkMouseEvent 150 859 false false)
                         plainFiles in
  x w' == 150 /\ width w' == 900.
Proof.
  cbv zeta.
  destruct (resize_without_movement fullHD HBottomLeft
              (mkMouseEvent 150 859 false false) plainFiles)
    as (Hx & _ & Hw & _).
  - repeat constructor; pixel.
  - split; simpl; lra.
  - repeat split; simpl; lra.
  - split; [exact Hx|exact Hw].
Defined.

(** X22. After every resize update the resized window starts neither
    left of the screen nor above the top bar, carries the [isResizing]
    mark, and along each axis where its new size fits into the viewport
    it ends inside the viewport. *)
Theorem resize_update_clamps_position :
  forall (vp : Viewport) (s : Shell) (rs : ResizeState) (e : MouseEvent),
    resizingWindow s = Some rs ->
    Forall
      (fun w' =>
         id w' = windowId rs ->
         0 <= x w' /\ 40 <= y w' /\ isResizing w' = true
         /\ (width w' <= innerWidth vp -> x w' + width w' <= innerWidth vp)
         /\ (40 + height w' <= innerHeight vp ->
             y w' + height w' <= innerHeight vp))
      (windows (resizeUpdate vp s e)).
Proof.
  intros vp s rs e Hr. unfold resizeUpdate.
  destruct (onMouseMove_resizing vp e s rs Hr) as (-> & _).
  apply Forall_forall. intros w' Hin Hid.
  apply in_map_iff in Hin. destruct Hin as [w [<- _]].
  unfold resizeOne in *.
  destruct (String.eqb (id w) (windowId rs)) eqn:E; simpl in *.
  - destruct (resizeWindow_clamp vp rs e w) as (A & B & C & D).
    split; [exact A|]. split; [exact B|]. split; [|split; assumption].
    unfold resizeWindow. now destruct (handle rs).
  - apply string_eqb_false in E. contradiction.
Qed.

Lemma resize_update_clamps_position_witness :
  Forall (fun w' => 0 <= x w' /\ 40 <= y w')
         (windows (resizeGesture fullHD (mkMouseEvent 100 400 false true)
                                 terminalId HLeft
                                 [mkMouseEvent (-500) 400 false false]
                                 terminalOpen)).
Proof.
  pose proof (resize_update_clamps_position fullHD
                (onResizeHandleMouseDown (mkMouseEvent 100 400 false true)
                                         terminalId HLeft terminalOpen)
                _ (mkMouseEvent (-500) 400 false false) eq_refl) as H.
  inversion H as [|w' l Hw' _ Heq]; subst.
  constructor; [|constructor].
  destruct (Hw' eq_refl) as (A & B & _). now split.
Defined.

(** *** The dock and the launcher *)

Lemma same_title_same_window (l : list Window) (a b : Window) :
  NoDup (map title l) -> In a l -> In b l -> title a = title b -> a = b.
Proof.
  induction l as [|c l IH]; intros Hnd Ha Hb Ht; [destruct Ha|].
  simpl in Hnd. inversion Hnd as [|t l0 Hnotin Hrest]; subst.
  destruct Ha as [<-|Ha], Hb as [<-|Hb].
  - reflexivity.
  - exfalso. apply Hnotin. rewrite Ht. now apply in_map.
  - exfalso. apply Hnotin. rewrite <- Ht. now apply in_map.
  - now apply IH.
Qed.

Lemma activate_shows (w : Window) (l : list Window) :
  In w l ->
  In (with_minimized false w)
     (filter (fun v => negb (minimized v))
             (if minimized w
              then map (fun v => if String.eqb (id v) (id w)
                                 then with_minimized false v else v) l
              else l)).
Proof.
  intro Hin. apply filter_In. split; [|reflexivity].
  destruct (minimized w) eqn:Hm.
  - apply in_map_iff. exists w. split; [|assumption].
    now rewrite String.eqb_refl.
  - rewrite <- Hm. now rewrite with_minimized_same.
Qed.

(** X23. Every open window can be brought back from the dock.  When no
    two windows share a title, each window of the list either has a dock
    item of its own (its title is none of the six dock apps) or is
    marked as running on the dock entry of its app; a click on that item
    or entry draws the window (un-minimized if it was minimized), makes
    it the active window and creates no window. *)
Theorem dock_restores_any_window :
  forall (s : Shell) (w : Window) (now : Z) (rx ry : Q),
    NoDup (map title (windows s)) -> In w (windows s) ->
    (In w (extraDockWindows s)
     /\ let s' := dispatch (activateFromDock w) s in
        In (with_minimized false w) (visibleWindows s')
        /\ activeWindow s' = Some (id w)
        /\ List.length (windows s') = List.length (windows s))
    \/ (exists app,
           In app dockApps /\ app_name app = title w
           /\ isRunning s app = true
           /\ let s' := dispatch (openApp app now rx ry) s in
              In (with_minimized false w) (visibleWindows s')
              /\ activeWindow s' = Some (id w)
              /\ List.length (windows s') = List.length (windows s)).
Proof.
  intros s w now rx ry Hnd Hin.
  destruct (existsb (fun app => String.eqb (app_name app) (title w)) dockApps)
    eqn:Hdock.
  - right. apply existsb_exists in Hdock. destruct Hdock as [app [Happ Hname]].
    apply string_eqb_true in Hname.
    exists app. split; [assumption|]. split; [assumption|]. split.
    { unfold isRunning. apply existsb_exists. exists w. split; [assumption|].
      apply string_eqb_true. now symmetry. }
    cbv zeta. unfold visibleWindows, dispatch, openApp.
    destruct (find (fun v => String.eqb (title v) (app_name app)) (windows s))
      as [ex|] eqn:Hf.
    + apply find_some in Hf. destruct Hf as [Hexin Hext].
      apply string_eqb_true in Hext.
      assert (ex = w) as ->.
      { apply (same_title_same_window (windows s)); congruence. }
      split; [|split].
      * generalize (activate_shows w (windows s) Hin).
        destruct (minimized w); simpl; auto.
      * destruct (minimized w); reflexivity.
      * destruct (minimized w); simpl; [apply length_map|reflexivity].
    + exfalso. apply (find_none _ _ Hf) in Hin.
      apply string_eqb_false in Hin. congruence.
  - left. split.
    { unfold extraDockWindows. apply filter_In. split; [assumption|].
      now rewrite Hdock. }
    cbv zeta. unfold visibleWindows, dispatch, activateFromDock.
    split; [|split].
    + generalize (activate_shows w (windows s) Hin).
      destruct (minimized w); simpl; auto.
    + destruct (minimized w); reflexivity.
    + destruct (minimized w); simpl; [apply length_map|reflexivity].
Qed.

Lemma dock_restores_any_window_witness :
  In plainFiles
     (visibleWindows (dispatch (openApp filesApp 1700000004000 0 0)
                               (dispatch (minimizeWindow "window-2") twoWindows))).
Proof.
  destruct (dock_restores_any_window
              (dispatch (minimizeWindow "window-2") twoWindows)
              (with_minimized true plainFiles) 1700000004000 0 0)
    as [[Hextra _]|[app (Happ & Hname & _ & Hvis & _)]].
  - simpl. repeat constructor; simpl; intuition discriminate.
  - right. left. reflexivity.
  - exfalso. vm_compute in Hextra. exact Hextra.
  - assert (app = filesApp) as ->.
    { simpl in Happ, Hname.
      destruct Happ as [<-|[<-|[<-|[<-|[<-|[<-|[]]]]]]];
        try discriminate; reflexivity. }
    exact Hvis.
Defined.

Lemma startsWith_spec (sub : string) :
  forall s, startsWith s sub = true <-> exists post, s = sub ++ post.
Proof.
  induction sub as [|b sub IH]; intro s; simpl.
  - destruct s; split; intros; try reflexivity; eexists; reflexivity.
  - destruct s as [|a s]; simpl.
    + split; [discriminate|]. intros [post H]. discriminate.
    + rewrite andb_true_iff, IH. split.
      * intros [Hab [post ->]]. apply Ascii.eqb_eq in Hab. subst.
        now exists post.
      * intros [post H]. injection H as -> ->.
        split; [apply Ascii.eqb_refl|now exists post].
Qed.

Lemma includes_spec (sub : string) :
  forall s, includes s sub = true
            <-> exists pre post, s = pre ++ sub ++ post.
Proof.
  induction s as [|a s IH]; cbn [includes]; rewrite orb_true_iff.
  - split.
    + intros [H|H]; [|discriminate].
      apply startsWith_spec in H. destruct H as [post ->].
      now exists "", post.
    + intros [pre [post H]]. left. apply startsWith_spec.
      destruct pre; [now exists post|discriminate].
  - split.
    + intros [H|H].
      * apply startsWith_spec in H. destruct H as [post H].
        exists "", post. exact H.
      * apply IH in H. destruct H as [pre [post ->]].
        now exists (String a pre), post.
    + intros [pre [post H]]. destruct pre as [|c pre]; simpl in H.
      * left. apply startsWith_spec. now exists post.
      * right. injection H as -> ->. apply IH. now exists pre, post.
Qed.

Lemma toLowerCase_app (a b : string) :
  toLowerCase (a ++ b) = toLowerCase a ++ toLowerCase b.
Proof.
  induction a as [|c a IH]; simpl; [reflexivity|now rewrite IH].
Qed.

Lemma append_assoc (a b c : string) : (a ++ b) ++ c = a ++ (b ++ c).
Proof.
  induction a as [|x a IH]; simpl; [reflexivity|now rewrite IH].
Qed.

Lemma append_nil_r (a : string) : a ++ "" = a.
Proof.
  induction a as [|x a IH]; simpl; [reflexivity|now rewrite IH].
Qed.

(** X24. The launcher lists exactly the catalog entries whose
    lower-cased name contains the lower-cased query as a contiguous
    substring (names and queries of ASCII characters); in particular the
    empty query lists the whole catalog and a name typed in full, in any
    case, lists its entry. *)
Theorem launcher_filter_spec :
  (forall (q : string) (app : App),
      In app (launcherEntries q)
      <-> In app desktopApps
          /\ exists pre post,
               toLowerCase (app_name app) = pre ++ toLowerCase q ++ post)
  /\ launcherEntries "" = desktopApps
  /\ (forall (q : string) (app : App),
         In app desktopApps ->
         toLowerCase q = toLowerCase (app_name app) ->
         In app (launcherEntries q)).
Proof.
  assert (Hspec : forall q app,
             In app (launcherEntries q)
             <-> In app desktopApps
                 /\ exists pre post,
                      toLowerCase (app_name app) = pre ++ toLowerCase q ++ post).
  { intros q app. unfold launcherEntries.
    now rewrite filter_In, includes_spec. }
  split; [exact Hspec|]. split; [reflexivity|].
  intros q app Hin Hq. apply Hspec. split; [assumption|].
  exists "", "". rewrite Hq. simpl. symmetry. apply append_nil_r.
Qed.

Lemma launcher_filter_spec_witness :
  In terminalApp (launcherEntries "TERMINAL")
  /\ In terminalApp (launcherEntries "erm").
Proof.
  destruct launcher_filter_spec as (Hspec & _ & Hfull).
  split.
  - apply Hfull; [left; reflexivity|reflexivity].
  - apply Hspec. split; [left; reflexivity|].
    exists "t", "inal". reflexivity.
Defined.

(** X25. Typing more never brings entries back: every entry listed
    for a query extended at its end (or at its start) is also listed for
    the query itself. *)
Theorem launcher_narrows :
  forall (q more : string) (app : App),
    (In app (launcherEntries (q ++ more)) -> In app (launcherEntries q))
    /\ (In app (launcherEntries (more ++ q)) -> In app (launcherEntries q)).
Proof.
  intros q more app. unfold launcherEntries.
  rewrite !filter_In, !includes_spec, !toLowerCase_app.
  split; intros [Hin [pre [post H]]]; (split; [assumption|]).
  - exists pre, (toLowerCase more ++ post).
    rewrite H. now rewrite append_assoc.
  - exists (pre ++ toLowerCase more), post.
    rewrite H. now rewrite !append_assoc.
Qed.

Lemma launcher_narrows_witness : In filesApp (launcherEntries "fi").
Proof.
  apply (proj1 (launcher_narrows "fi" "LE" filesApp)).
  vm_compute. left. reflexivity.
Defined.

(** X26. The dock's container and the row of items inside it agree on
    the orientation only at the four edge anchors: the container is a
    column exactly at left and right, whereas the item row is a column at
    every anchor but bottom and top, so at the four corners a row
    container holds a column of items. *)
Theorem dock_orientation :
  forall (p : DockPosition),
    (includes (getDockPositionStyles p) "flex-col" = true
     <-> p = DockLeft \/ p = DockRight)
    /\ (includes (dockItemsClassName p) "flex-col" = true
        <-> p <> DockBottom /\ p <> DockTop)
    /\ (includes (getDockPositionStyles p) "flex-col"
        = negb (includes (getDockPositionStyles p) "flex-row"))
    /\ (includes (dockItemsClassName p) "flex-col"
        = negb (includes (dockItemsClassName p) "flex-row")).
Proof.
  intro p.
  destruct p; vm_compute; repeat split; intros;
    try discriminate; try reflexivity; try tauto;
    try (left; reflexivity); try (right; reflexivity);
    match goal with
    | H : _ \/ _ |- _ => destruct H; discriminate
    | H : _ /\ _ |- _ => destruct H as [H1 H2]; try (now elim H1); now elim H2
    end.
Qed.

Lemma dock_orientation_witness :
  includes (getDockPositionStyles DockTopLeft) "flex-col" = false
  /\ includes (dockItemsClassName DockTopLeft) "flex-col" = true.
Proof.
  destruct (dock_orientation DockTopLeft) as (Hc & Hi & _).
  split.
  - destruct (includes (getDockPositionStyles DockTopLeft) "flex-col") eqn:E;
      [|reflexivity].
    destruct (proj1 Hc eq_refl); discriminate.
  - apply Hi. split; discriminate.
Defined.

(** *** The dock drag flag *)

Lemma actWith_keeps_dock_flag (vp : Viewport) (r s : Shell) (a : Action) :
  isDraggingDock s = true -> isDraggingDock (actWith vp r s a) = true.
Proof.
  intro H.
  destruct a as [l| | |wid|wid|wid|zone|i|e wid|e wid h|e|e|e| | |p];
    simpl actWith;
    unfold runEffect, handleMouseUp, handleMouseMove,
      openApp, closeWindow, minimizeWindow, maximizeWindow,
      snapWindow, activateFromDock, handleWindowMouseDown,
      handleWindowMouseMove, handleWindowMouseUp, handleWindowResize,
      startWindowResize, handleDockDrag;
    repeat match goal with
           | |- context [match ?c with _ => _ end] =>
               match c with
               | context [match _ with _ => _ end] => fail 1
               | _ => destruct c
               end
           end;
    simpl; try assumption; reflexivity.
Qed.

(** X27. The dock's dragging flag is never cleared: once a dock drag
    has started, [isDraggingDock] is true after every later action, the
    end of that drag included, whatever the viewport at each action and
    whichever earlier render each handler's closure belongs to. *)
Theorem dock_drag_flag_never_cleared :
  forall (before after : list Step) (vp : Viewport) (age : nat),
    isDraggingDock
      (committed (runSteps (before ++ mkStep vp age ADockDragStart :: after)))
    = true.
Proof.
  intros before after vp age. unfold runSteps.
  rewrite fold_left_app.
  generalize (fold_left stepRun before [initialShell]). intro renders0.
  change (fold_left stepRun (mkStep vp age ADockDragStart :: after) renders0)
    with (fold_left stepRun after
                    (stepRun renders0 (mkStep vp age ADockDragStart))).
  assert (H : isDraggingDock
                (committed (stepRun renders0 (mkStep vp age ADockDragStart)))
              = true) by reflexivity.
  revert H. generalize (stepRun renders0 (mkStep vp age ADockDragStart)).
  induction after as [|st after IH]; intros renders H; simpl; [assumption|].
  apply IH. unfold stepRun, committed at 1. simpl hd.
  now apply actWith_keeps_dock_flag.
Qed.

End DesktopSpec.
